(** * Text-statistics feature generator

    A shallow embedding of
    [autogluon/utils/tabular/features/generators/abstract.py] and
    [autogluon/utils/tabular/features/generators/text_special.py].

    - Python [str] values are sequences of Unicode code points.
    - The Unicode character database behind [str.isupper], [str.islower],
      [str.isdigit], [str.isalpha], [str.split] and the regular expression
      class [\w] is an interface ([CharClass]); the statistics are generic
      in it.
    - Python numbers are modelled by their exact value: counts are natural
      numbers, the result of a true division [a / b] is the rational [a/b]
      (binary rounding is not modelled).
    - A pandas table is a row index together with an ordered list of named
      columns; pandas' float columns have the two non-finite values. *)

From Stdlib Require Import ZArith NArith QArith Ascii String.
From stdpp Require Import base list gmap.

Local Open Scope N_scope.

(** ** Python strings *)

Abbreviation char := N (only parsing).
Abbreviation str := (list N) (only parsing).

(** A string literal of the source (all of them are ASCII). *)
Definition lit (s : string) : str :=
  List.map N_of_ascii (list_ascii_of_string s).

(** [' '] *)
Definition SPACE : char := 32.

(** Character classification, as CPython reads it from the Unicode
    character database: [c.isupper()], [c.islower()], [c.isdigit()],
    [c.isalpha()], [c.isspace()] on a one-character string, and membership
    in the class [\w] of [re]. *)
Class CharClass := {
  isupper : char → bool;
  islower : char → bool;
  isdigit : char → bool;
  isalpha : char → bool;
  isspace : char → bool;
  isword  : char → bool
}.

(** In the Unicode database the properties Uppercase and Lowercase are
    disjoint. *)
Definition case_disjoint `{CharClass} : Prop :=
  ∀ c, isupper c = true → islower c = false.

(** The database restricted to Basic Latin (U+0000..U+007F) and the CJK
    unified ideographs U+4E00..U+9FA5 (letters without case); code points
    outside these two blocks are left unclassified.  Used for the
    examples. *)
Definition between (lo hi c : N) : bool := (lo <=? c) && (c <=? hi).

Definition latin_cjk : CharClass := {|
  isupper c := between 65 90 c;
  islower c := between 97 122 c;
  isdigit c := between 48 57 c;
  isalpha c := between 65 90 c || between 97 122 c || between 19968 40869 c;
  isspace c := between 9 13 c || between 28 32 c;
  isword c := between 65 90 c || between 97 122 c || between 19968 40869 c
              || between 48 57 c || (c =? 95)
|}.

Section Statistics.
Context `{U : CharClass}.

(** Python's [sum] over a generator of integers. *)
Definition py_sum (l : list nat) : nat := foldr Nat.add 0%nat l.

(** [int(b)] for a [bool] summed as a number. *)
Definition int_of_bool (b : bool) : nat := if b then 1%nat else 0%nat.

(** [string.replace(' ', '')] *)
Definition replace_space (string : str) : str :=
  List.filter (λ c, negb (c =? SPACE)) string.

(** [re.sub(r'[\w]+', '', string)]: every maximal run of word characters
    is replaced by the empty string, which leaves exactly the characters
    outside [\w], in order. *)
Definition re_sub_word (string : str) : str :=
  List.filter (λ c, negb (isword c)) string.

(** [len(a) / len(b)] for a non-empty [b]. *)
Definition truediv (a b : nat) : Q :=
  Z.of_nat a # Pos.of_nat b.

(** [string.split()]: the scan of CPython's [split_whitespace]; [word]
    is the token being read, if any. *)
Fixpoint split_scan (word : option str) (string : str) : list str :=
  match string with
  | [] => match word with None => [] | Some w => [w] end
  | c :: rest =>
      if isspace c then
        match word with
        | None => split_scan None rest
        | Some w => w :: split_scan None rest
        end
      else split_scan (Some (default [] word ++ [c])) rest
  end.

Definition split (string : str) : list str := split_scan None string.

Definition word_count (string : str) : nat := length (split string).

Definition char_count (string : str) : nat := length string.

Definition special_ratio (string : str) : Q :=
  let string := replace_space string in
  match string with
  | [] => 0
  | _ :: _ =>
      let new_str := re_sub_word string in
      truediv (length new_str) (length string)
  end.

Definition digit_ratio (string : str) : Q :=
  let string := replace_space string in
  match string with
  | [] => 0
  | _ :: _ =>
      truediv (py_sum (List.map (λ c, int_of_bool (isdigit c)) string))
              (length string)
  end.

Definition lower_ratio (string : str) : Q :=
  let string := replace_space string in
  match string with
  | [] => 0
  | _ :: _ =>
      truediv (py_sum (List.map (λ c, int_of_bool (islower c)) string))
              (length string)
  end.

Definition capital_ratio (string : str) : Q :=
  let string := replace_space string in
  match string with
  | [] => 0
  | _ :: _ =>
      truediv (py_sum (List.map (λ _, 1%nat) (List.filter isupper string)))
              (length string)
  end.

(** Iterating over a [str] yields one-character strings, and [==]
    compares such a string with the whole of [character]. *)
Definition symbol_in_string_count (string character : str) : nat :=
  match string with
  | [] => 0%nat
  | _ :: _ =>
      py_sum (List.map (λ _, 1%nat)
             (List.filter (λ c, bool_decide ([c] = character)) string))
  end.

(** [string.isalpha()]: at least one character, all of them letters. *)
Definition str_isalpha (string : str) : bool :=
  match string with
  | [] => false
  | _ :: _ => forallb isalpha string
  end.

End Statistics.

(** ** Tables

    A pandas [Series] is a row index with one value per row; a [DataFrame]
    is a row index with an ordered list of named columns.  [get_column]
    reads the first column of a label; the input tables of the theorems
    carry pairwise distinct labels ([wf_frame]), for which pandas'
    [X[name]] is that single column. *)

Record Series (L A : Type) := mkSeries {
  s_index : list L;
  s_values : list A
}.
Arguments mkSeries {L A} _ _.
Arguments s_index {L A} _.
Arguments s_values {L A} _.

Record DataFrame (L A : Type) := mkFrame {
  index : list L;
  columns : list (str * list A)
}.
Arguments mkFrame {L A} _ _.
Arguments index {L A} _.
Arguments columns {L A} _.

(** A float64 of pandas: a finite value (signed zeros are not
    distinguished), an infinity with its sign, or NaN. *)
Inductive float64 :=
| Fin (q : Q)
| Inf (negative : bool)
| NaN.

(** A cell of a generated column: an entry of an integer column or of a
    float column. *)
Inductive cell :=
| Int (n : Z)
| Float (x : float64).

Definition to_float (c : cell) : float64 :=
  match c with
  | Int n => Fin (inject_Z n)
  | Float x => x
  end.

Definition Qneg_bool (q : Q) : bool := negb (Qle_bool 0 q).

(** Element-wise [/] of two numeric columns: the result is a float, a
    division of zero by zero is NaN, of another number by zero an
    infinity. *)
Definition float_truediv (x y : float64) : float64 :=
  match x, y with
  | NaN, _ | _, NaN => NaN
  | Inf _, Inf _ => NaN
  | Inf s, Fin q => Inf (xorb s (Qneg_bool q))
  | Fin _, Inf _ => Fin 0
  | Fin p, Fin q =>
      if Qeq_bool q 0 then
        if Qeq_bool p 0 then NaN else Inf (Qneg_bool p)
      else Fin (p / q)
  end.

Definition cell_truediv (a b : cell) : cell :=
  Float (float_truediv (to_float a) (to_float b)).

(** [fillna(value)] on one cell: only NaN is missing. *)
Definition cell_fillna (value : Q) (c : cell) : cell :=
  match c with
  | Float NaN => Float (Fin value)
  | _ => c
  end.

(** The column that [df[name] = values] stores for a list of Python
    numbers: an integer column when all of them are [int], a float column
    holding their values otherwise. *)
Definition is_int (c : cell) : bool :=
  match c with
  | Int _ => true
  | Float _ => false
  end.

Definition numeric_column (values : list cell) : list cell :=
  if forallb is_int values then values
  else List.map (λ c, Float (to_float c)) values.
Arguments numeric_column : simpl never.

Definition is_finite (c : cell) : bool :=
  match c with
  | Int _ | Float (Fin _) => true
  | Float (Inf _) | Float NaN => false
  end.

Section Frames.
Context {L A : Type}.

(** [list(X.columns)] *)
Definition names (X : DataFrame L A) : list str := (columns X).*1.

(** [DataFrame(index=idx)] *)
Definition DataFrame_of_index (idx : list L) : DataFrame L A :=
  mkFrame idx [].

(** The column list after [df[name] = values]: an existing column keeps
    its place and takes the new values, a new one goes last. *)
Fixpoint set_column (name : str) (values : list A)
    (cols : list (str * list A)) : list (str * list A) :=
  match cols with
  | [] => [(name, values)]
  | (n, v) :: rest =>
      if decide (n = name) then (n, values) :: rest
      else (n, v) :: set_column name values rest
  end.

(** [df[name] = values], with one value per row of [df]. *)
Definition setitem (df : DataFrame L A) (name : str) (values : list A)
    : DataFrame L A :=
  mkFrame (index df) (set_column name values (columns df)).

Fixpoint get_column (name : str) (cols : list (str * list A))
    : option (list A) :=
  match cols with
  | [] => None
  | (n, v) :: rest =>
      if decide (n = name) then Some v else get_column name rest
  end.

(** Every column has one value per row and labels are distinct. *)
Definition wf_frame (X : DataFrame L A) : Prop :=
  NoDup (names X) ∧
  Forall (λ col, length col.2 = length (index X)) (columns X).

End Frames.

(** ** Generator state and the exceptions of the two classes *)

Inductive exc :=
| AssertionError (msg : string)
| NotImplementedError
| KeyError
| ValueError.

Inductive outcome (A : Type) :=
| Return (a : A)
| Raise (e : exc).
Arguments Return {A} _.
Arguments Raise {A} _.

(** [FeatureTypesMetadata(feature_types_raw=..., feature_types_special=...)],
    a pair of dictionaries from a type group to its columns. *)
Record FeatureTypesMetadata := mkMetadata {
  feature_types_raw : gmap str (list str);
  feature_types_special : gmap str (list str)
}.

Inductive cls :=
| Abstract
| TextSpecial.

(** The attributes of an instance; [_symbols] is the attribute added by
    [TextSpecialFeatureGenerator].  Instances of that class are given by
    their attributes. *)
Record Generator := mkGenerator {
  class_of : cls;
  _is_fit : bool;
  feature_types_metadata : option FeatureTypesMetadata;
  features_in : option (list str);
  features_out : option (list str);
  _symbols : list str
}.

Definition set_is_fit (b : bool) (g : Generator) : Generator :=
  mkGenerator (class_of g) b (feature_types_metadata g) (features_in g)
    (features_out g) (_symbols g).
Definition set_feature_types_metadata (m : FeatureTypesMetadata)
    (g : Generator) : Generator :=
  mkGenerator (class_of g) (_is_fit g) (Some m) (features_in g)
    (features_out g) (_symbols g).
Definition set_features_in (l : list str) (g : Generator) : Generator :=
  mkGenerator (class_of g) (_is_fit g) (feature_types_metadata g) (Some l)
    (features_out g) (_symbols g).
Definition set_features_out (l : list str) (g : Generator) : Generator :=
  mkGenerator (class_of g) (_is_fit g) (feature_types_metadata g)
    (features_in g) (Some l) (_symbols g).

(** [AbstractFeatureGenerator.__init__(features_in)]: an instance starts
    unfit, without metadata and without output columns. *)
Definition init (features_in : option (list str)) : Generator :=
  mkGenerator Abstract false None features_in None [].

(** The default of the parameter [symbols] of
    [TextSpecialFeatureGenerator.__init__]. *)
Definition default_symbols : list str :=
  [lit "!"; lit "?"; lit "@"; lit "%"; lit "$"; lit "*"; lit "&"; lit "#";
   lit "^"; lit "."; lit ":"; lit " "; lit "/"; lit ";"; lit "-"; lit "="].

(** A method: it reads and updates the attributes of [self] and returns a
    value or raises. *)
Definition M (A : Type) : Type := Generator → Generator * outcome A.

#[global] Instance M_ret : MRet M := λ A a self, (self, Return a).
#[global] Instance M_bind : MBind M := λ A B f m self,
  match m self with
  | (self', Return a) => f a self'
  | (self', Raise e) => (self', Raise e)
  end.

Definition raise {A : Type} (e : exc) : M A := λ self, (self, Raise e).
Definition attr {A : Type} (f : Generator → A) : M A :=
  λ self, (self, Return (f self)).
Definition assign (f : Generator → Generator) : M unit :=
  λ self, (f self, Return tt).

(** [for x in l: body], threading the local variable the body updates. *)
Fixpoint for_in {A S : Type} (l : list A) (body : A → S → M S) (s : S)
    : M S :=
  match l with
  | [] => mret s
  | x :: rest => s' ← body x s; for_in rest body s'
  end.

(** [df[name]] on a frame in which the label [name] occurs at most once:
    the column as a Series, [KeyError] when there is none.  (Where a label
    is repeated pandas returns the sub-frame of all its columns; the
    theorems that read a column by its label assume distinct labels.) *)
Definition getitem {L A : Type} (df : DataFrame L A) (name : str)
    : M (Series L A) :=
  match get_column name (columns df) with
  | Some v => mret (mkSeries (index df) v)
  | None => raise KeyError
  end.

(** The columns of [X[names]], in the order of [names]. *)
Fixpoint select_columns {A : Type} (cols : list (str * list A))
    (names : list str) : option (list (str * list A)) :=
  match names with
  | [] => Some []
  | n :: rest =>
      match get_column n cols, select_columns cols rest with
      | Some v, Some r => Some ((n, v) :: r)
      | _, _ => None
      end
  end.

(** [X[names]] for a list of pairwise distinct labels on a frame with
    pairwise distinct labels ([None] is not a label): one column per
    name, [KeyError] when a name is missing.  (pandas keeps every column
    that matches, once per occurrence of its name; the theorems that
    depend on the selected columns assume distinct labels and names.) *)
Definition getitem_list {L A : Type} (X : DataFrame L A)
    (names : option (list str)) : M (DataFrame L A) :=
  match names with
  | None => raise KeyError
  | Some l =>
      match select_columns (columns X) l with
      | Some cols => mret (mkFrame (index X) cols)
      | None => raise KeyError
      end
  end.

(** [pd.concat(frames, axis=1)] of frames that all carry one and the same
    row index: that index, and the columns side by side.  An empty list of
    frames is refused. *)
Definition concat_axis1 {L A : Type} (frames : list (DataFrame L A))
    : M (DataFrame L A) :=
  match frames with
  | [] => raise ValueError
  | df :: _ => mret (mkFrame (index df) (concat (List.map columns frames)))
  end.

(** [a / b] on two columns of one frame. *)
Definition series_truediv {L : Type} (a b : Series L cell) : Series L cell :=
  mkSeries (s_index a) (zip_with cell_truediv (s_values a) (s_values b)).

(** [s.fillna(value)] *)
Definition fillna {L : Type} (s : Series L cell) (value : Q) : Series L cell :=
  mkSeries (s_index s) (List.map (cell_fillna value) (s_values s)).

(** ** [TextSpecialFeatureGenerator] *)

Module TextSpecialFeatureGenerator.
Section Methods.
Context {L : Type} `{U : CharClass}.

(** The constant imported from [feature_metadata]. *)
Variable S_TEXT_SPECIAL : str.

(** [[f(value) for value in X]] *)
Definition comprehension {B : Type} (f : str → B) (X : Series L str)
    : list B :=
  List.map f (s_values X).

(** A count is a Python [int]. *)
Definition of_count (n : nat) : cell := Int (Z.of_nat n).

(** The Python number a ratio function returns for [value]: the [int] 0 of
    its blank branch, the [float] quotient otherwise. *)
Definition of_ratio (ratio : str → Q) (value : str) : cell :=
  match replace_space value with
  | [] => Int 0
  | _ :: _ => Float (Fin (ratio value))
  end.

(** The body of the loop over [self._symbols].  The ratio column is
    assigned and then its missing values are filled in place
    ([fillna(0, inplace=True)] on the column of the frame).  The input
    column [X] is only read. *)
Definition symbol_step (X : Series L str) (feature symbol : str)
    (X_text_special : DataFrame L cell) : M (DataFrame L cell) :=
  let X_text_special :=
    setitem X_text_special (feature ++ lit ".symbol_count." ++ symbol)
      (comprehension (λ value, of_count (symbol_in_string_count value symbol)) X) in
  count ← getitem X_text_special (feature ++ lit ".symbol_count." ++ symbol);
  chars ← getitem X_text_special (feature ++ lit ".char_count");
  let X_text_special :=
    setitem X_text_special (feature ++ lit ".symbol_ratio." ++ symbol)
      (s_values (series_truediv count chars)) in
  ratio ← getitem X_text_special (feature ++ lit ".symbol_ratio." ++ symbol);
  mret (setitem X_text_special (feature ++ lit ".symbol_ratio." ++ symbol)
          (s_values (fillna ratio 0))).

Definition _generate_text_special (X : Series L str) (feature : str)
    : M (DataFrame L cell) :=
  let X_text_special : DataFrame L cell := DataFrame_of_index (s_index X) in
  let X_text_special :=
    setitem X_text_special (feature ++ lit ".char_count")
      (comprehension (λ value, of_count (char_count value)) X) in
  let X_text_special :=
    setitem X_text_special (feature ++ lit ".word_count")
      (comprehension (λ value, of_count (word_count value)) X) in
  let X_text_special :=
    setitem X_text_special (feature ++ lit ".capital_ratio")
      (numeric_column (comprehension (of_ratio capital_ratio) X)) in
  let X_text_special :=
    setitem X_text_special (feature ++ lit ".lower_ratio")
      (numeric_column (comprehension (of_ratio lower_ratio) X)) in
  let X_text_special :=
    setitem X_text_special (feature ++ lit ".digit_ratio")
      (numeric_column (comprehension (of_ratio digit_ratio) X)) in
  let X_text_special :=
    setitem X_text_special (feature ++ lit ".special_ratio")
      (numeric_column (comprehension (of_ratio special_ratio) X)) in
  symbols ← attr _symbols;
  for_in symbols (symbol_step X feature) X_text_special.

Definition _generate_features_text_special (X : DataFrame L str)
    : M (DataFrame L cell) :=
  features_in ← attr features_in;
  match features_in with
  | Some ((_ :: _) as features_in) =>
      X_text_special_combined ←
        for_in features_in
          (λ nlp_feature X_text_special_combined,
             column ← getitem X nlp_feature;
             df_text_special ← _generate_text_special column nlp_feature;
             mret (X_text_special_combined ++ [df_text_special]))
          [];
      concat_axis1 X_text_special_combined
  | _ => mret (DataFrame_of_index (index X))
  end.

Definition _transform (X : DataFrame L str) : M (DataFrame L cell) :=
  _generate_features_text_special X.

Definition _fit_transform (X : DataFrame L str)
    : M (DataFrame L cell * gmap str (list str)) :=
  X_out ← _transform X;
  let type_family_groups_special : gmap str (list str) :=
    {[ S_TEXT_SPECIAL := names X_out ]} in
  mret (X_out, type_family_groups_special).

End Methods.
End TextSpecialFeatureGenerator.

(** ** [AbstractFeatureGenerator] *)

Module AbstractFeatureGenerator.
Section Methods.
Context {L : Type}.

Definition fit (X : DataFrame L str) : M unit :=
  raise NotImplementedError.

Definition _fit_transform (X : DataFrame L str)
    : M (DataFrame L cell * gmap str (list str)) :=
  raise NotImplementedError.

Definition _transform (X : DataFrame L str) : M (DataFrame L cell) :=
  raise NotImplementedError.

End Methods.
End AbstractFeatureGenerator.

(** ** Method resolution and the two entry points of the base class *)

Section Generator.
Context {L : Type} `{U : CharClass}.
Variable S_TEXT_SPECIAL : str.

(** [get_type_family_groups_df] of [..types]: the raw type groups of a
    table. *)
Variable get_type_family_groups_df : DataFrame L cell → gmap str (list str).

(** [self.fit]: neither class overrides the method of the base. *)
Definition fit (X : DataFrame L str) : M unit :=
  AbstractFeatureGenerator.fit X.

(** [self._fit_transform] *)
Definition _fit_transform (X : DataFrame L str)
    : M (DataFrame L cell * gmap str (list str)) :=
  c ← attr class_of;
  match c with
  | Abstract => AbstractFeatureGenerator._fit_transform X
  | TextSpecial => TextSpecialFeatureGenerator._fit_transform S_TEXT_SPECIAL X
  end.

(** [self._transform] *)
Definition _transform (X : DataFrame L str) : M (DataFrame L cell) :=
  c ← attr class_of;
  match c with
  | Abstract => AbstractFeatureGenerator._transform X
  | TextSpecial => TextSpecialFeatureGenerator._transform X
  end.

Definition fit_transform (X : DataFrame L str) : M (DataFrame L cell) :=
  is_fit ← attr _is_fit;
  if (is_fit : bool) then raise (AssertionError "FeatureGenerator is already fit.")
  else
    features_in0 ← attr features_in;
    match features_in0 with
    | None => assign (set_features_in (names X))
    | Some _ => mret tt
    end;;
    features_in1 ← attr features_in;
    X_in ← getitem_list X features_in1;
    '(X_out, type_family_groups_special) ← _fit_transform X_in;
    assign (set_features_out (names X_out));;
    let type_family_groups_raw := get_type_family_groups_df X_out in
    assign (set_feature_types_metadata
              (mkMetadata type_family_groups_raw type_family_groups_special));;
    assign (set_is_fit true);;
    mret X_out.

Definition transform (X : DataFrame L str) : M (DataFrame L cell) :=
  is_fit ← attr _is_fit;
  if negb (is_fit : bool) then raise (AssertionError "FeatureGenerator is not fit.")
  else
    features_in ← attr features_in;
    X_in ← getitem_list X features_in;
    _transform X_in.

End Generator.

(** ** Whitespace-delimited tokens

    Stated from the specification's words: the tokens of a value are its
    maximal runs of non-whitespace characters, separated (and possibly
    preceded or followed) by whitespace. *)

Inductive tokens_of `{U : CharClass} : str → list str → Prop :=
| tokens_blank (ws : str) :
    Forall (λ c, isspace c = true) ws →
    tokens_of ws []
| tokens_word (ws w rest : str) (toks : list str) :
    Forall (λ c, isspace c = true) ws →
    w ≠ [] →
    Forall (λ c, isspace c = false) w →
    (rest = [] ∨ ∃ c r, rest = c :: r ∧ isspace c = true) →
    tokens_of rest toks →
    tokens_of (ws ++ w ++ rest) (w :: toks).

(** The value of a cell read as a number. *)
Definition cell_is (c : cell) (q : Q) : Prop :=
  match c with
  | Int n => (inject_Z n == q)%Q
  | Float (Fin p) => (p == q)%Q
  | Float (Inf _) | Float NaN => False
  end.

(** The exceptions raised by a [raise] statement of the two classes, as
    opposed to those raised inside pandas. *)
Definition raised_by_core (e : exc) : bool :=
  match e with
  | AssertionError _ | NotImplementedError => true
  | KeyError | ValueError => false
  end.

(** ** The generated table, in closed form

    Stated from the specification's words, for comparison with what
    [_generate_text_special] and [_generate_features_text_special]
    build. *)

(** The configured symbols without repetitions, each at the place of its
    first occurrence. *)
Fixpoint first_occurrences (seen symbols : list str) : list str :=
  match symbols with
  | [] => seen
  | symbol :: rest =>
      if decide (symbol ∈ seen) then first_occurrences seen rest
      else first_occurrences (seen ++ [symbol]) rest
  end.

Definition distinct_symbols (symbols : list str) : list str :=
  first_occurrences [] symbols.

(** The statistics of one input column, in the order of the
    specification. *)
Definition statistics (symbols : list str) : list str :=
  [lit "char_count"; lit "word_count"; lit "capital_ratio";
   lit "lower_ratio"; lit "digit_ratio"; lit "special_ratio"]
  ++ flat_map (λ symbol, [lit "symbol_count." ++ symbol;
                          lit "symbol_ratio." ++ symbol]) symbols.

(** ['<column>.<statistic>'], input-column-major then statistic-minor. *)
Definition expected_names (features symbols : list str) : list str :=
  flat_map (λ feature,
              List.map (λ statistic, feature ++ lit "." ++ statistic)
                (statistics symbols))
    features.

Section Expected.
Context `{U : CharClass}.

(** [symbol_count.<symbol>] divided by [char_count], a missing result
    replaced with 0. *)
Definition symbol_ratio_cell (value symbol : str) : cell :=
  cell_fillna 0
    (cell_truediv (Int (Z.of_nat (symbol_in_string_count value symbol)))
                  (Int (Z.of_nat (char_count value)))).

Definition fixed_columns (values : list str) (feature : str)
    : list (str * list cell) :=
  [(feature ++ lit ".char_count",
    List.map (λ value, Int (Z.of_nat (char_count value))) values);
   (feature ++ lit ".word_count",
    List.map (λ value, Int (Z.of_nat (word_count value))) values);
   (feature ++ lit ".capital_ratio",
    numeric_column (List.map (TextSpecialFeatureGenerator.of_ratio capital_ratio) values));
   (feature ++ lit ".lower_ratio",
    numeric_column (List.map (TextSpecialFeatureGenerator.of_ratio lower_ratio) values));
   (feature ++ lit ".digit_ratio",
    numeric_column (List.map (TextSpecialFeatureGenerator.of_ratio digit_ratio) values));
   (feature ++ lit ".special_ratio",
    numeric_column (List.map (TextSpecialFeatureGenerator.of_ratio special_ratio) values))].

Definition symbol_columns (values : list str) (feature symbol : str)
    : list (str * list cell) :=
  [(feature ++ lit ".symbol_count." ++ symbol,
    List.map (λ value, Int (Z.of_nat (symbol_in_string_count value symbol)))
      values);
   (feature ++ lit ".symbol_ratio." ++ symbol,
    List.map (λ value, symbol_ratio_cell value symbol) values)].

Definition text_special_columns (values : list str) (feature : str)
    (symbols : list str) : list (str * list cell) :=
  fixed_columns values feature
  ++ flat_map (symbol_columns values feature) symbols.

End Expected.

(** The values of the column [name] of [X] (none when there is no such
    column). *)
Definition column_values {L A : Type} (X : DataFrame L A) (name : str)
    : list A :=
  default [] (get_column name (columns X)).

(** The columns generated for the input columns [features] of [X]. *)
Definition expected_columns {L : Type} `{U : CharClass} (X : DataFrame L str)
    (features symbols : list str) : list (str * list cell) :=
  flat_map (λ feature,
              text_special_columns (column_values X feature) feature symbols)
    features.

(** ** What a method may do to [self]

    A method is tame when it leaves the attributes as they are, raises no
    exception of the two classes' own, and has a result determined by
    [features_in] and [_symbols]. *)
Definition config (g : Generator) : option (list str) * list str :=
  (features_in g, _symbols g).

Definition tame {A : Type} (m : M A) : Prop :=
  (∀ g, (m g).1 = g) ∧
  (∀ g e, (m g).2 = Raise e → raised_by_core e = false) ∧
  (∀ g1 g2, config g1 = config g2 → (m g1).2 = (m g2).2).

(** ** Sample data

    The end-to-end example of the specification: the column [text] with
    the values ["Hello World!"], [""] and ["abc123"], and the symbols
    ['!'] and ['a']. *)

Definition sample_table : DataFrame nat str :=
  mkFrame [0; 1; 2]%nat
    [(lit "text", [lit "Hello World!"; lit ""; lit "abc123"])].

Definition sample_series : Series nat str :=
  mkSeries [0; 1; 2]%nat [lit "Hello World!"; lit ""; lit "abc123"].

Definition sample_unfit : Generator :=
  mkGenerator TextSpecial false None None None [lit "!"; lit "a"].

Definition sample_fit : Generator :=
  mkGenerator TextSpecial true None (Some [lit "text"]) None [lit "!"; lit "a"].

(** The same fitted configuration with other bookkeeping. *)
Definition sample_fit' : Generator :=
  mkGenerator TextSpecial true None (Some [lit "text"])
    (Some [lit "text.char_count"]) [lit "!"; lit "a"].

(** A generator whose symbol list names ['!'] twice. *)
Definition sample_repeated : Generator :=
  mkGenerator TextSpecial true None (Some [lit "text"]) None [lit "!"; lit "!"].

(** A generator with a two-character symbol. *)
Definition sample_long : Generator :=
  mkGenerator TextSpecial true None (Some [lit "text"]) None [lit "!!"].

(** A generator without input columns. *)
Definition sample_empty : Generator :=
  mkGenerator TextSpecial true None (Some []) None [lit "!"; lit "a"].

Definition sample_type_groups (X : DataFrame nat cell) : gmap str (list str) :=
  ∅.


(** The one-character value U+4E2D, a letter without case. *)
Definition sample_ideograph : str := [20013].


(** ** Further facts of the character database and further sample data *)

(** Every digit is a word character: [\w] matches what [str.isalnum]
    accepts, and the underscore. *)
Definition digit_is_word `{CharClass} : Prop :=
  ∀ c, isdigit c = true → isword c = true.

(** The sample table with a second column, which no sample generator
    reads. *)
Definition sample_table_wide : DataFrame nat str :=
  mkFrame [0; 1; 2]%nat
    [(lit "id", [lit "a"; lit "b"; lit "c"]);
     (lit "text", [lit "Hello World!"; lit ""; lit "abc123"])].

(** A table without the column [text]. *)
Definition sample_table_other : DataFrame nat str :=
  mkFrame [0; 1]%nat [(lit "title", [lit "x"; lit "y z"])].

(** An unfit text generator configured with the input column [text]. *)
Definition sample_configured : Generator :=
  mkGenerator TextSpecial false None (Some [lit "text"]) None
    [lit "!"; lit "a"].

(** A fitted text generator with the symbols of [sample_repeated], each
    once. *)
Definition sample_once : Generator :=
  mkGenerator TextSpecial true None (Some [lit "text"]) None [lit "!"].

(** A fitted text generator with the default symbols. *)
Definition sample_default : Generator :=
  mkGenerator TextSpecial true None (Some [lit "text"]) None default_symbols.


(** A fitted instance has its input columns, its output columns and its
    metadata. *)
Definition fitted_complete (g : Generator) : Prop :=
  _is_fit g = true →
  is_Some (features_in g) ∧ is_Some (features_out g) ∧
  is_Some (feature_types_metadata g).


(** ** The generated table, cell by cell

    Stated from the specification's words: the number every cell of the
    generated table stands for. *)

(** The cells of a column read as numbers. *)
Definition column_is (cells : list cell) (numbers : list Q) : Prop :=
  Forall2 cell_is cells numbers.

(** [symbol_count.<symbol>] divided by [char_count], and 0 for a value
    without characters. *)
Definition symbol_ratio (value symbol : str) : Q :=
  if decide (char_count value = 0%nat) then 0%Q
  else (inject_Z (Z.of_nat (symbol_in_string_count value symbol))
        / inject_Z (Z.of_nat (char_count value)))%Q.

(** The statistics of a value, each with its name, in the order of the
    specification. *)
Definition statistic_functions `{U : CharClass} (symbols : list str)
    : list (str * (str → Q)) :=
  [(lit "char_count", λ value, inject_Z (Z.of_nat (char_count value)));
   (lit "word_count", λ value, inject_Z (Z.of_nat (word_count value)));
   (lit "capital_ratio", capital_ratio);
   (lit "lower_ratio", lower_ratio);
   (lit "digit_ratio", digit_ratio);
   (lit "special_ratio", special_ratio)]
  ++ flat_map
       (λ symbol,
          [(lit "symbol_count." ++ symbol,
            λ value, inject_Z (Z.of_nat (symbol_in_string_count value symbol)));
           (lit "symbol_ratio." ++ symbol,
            λ value, symbol_ratio value symbol)])
       symbols.

(** The expected table: for each input column in order, for each
    statistic in order, the column ['<column>.<statistic>'] holding the
    statistic of each value of the input column, row by row. *)
Definition expected_table {L : Type} `{U : CharClass} (X : DataFrame L str)
    (features symbols : list str) : list (str * list Q) :=
  flat_map
    (λ feature,
       List.map (λ statistic : str * (str → Q),
                   (feature ++ lit "." ++ statistic.1,
                    List.map statistic.2 (column_values X feature)))
         (statistic_functions symbols))
    features.

(** The columns [cols] are the columns [expected], label by label and
    cell by cell. *)
Definition same_table (cols : list (str * list cell))
    (expected : list (str * list Q)) : Prop :=
  Forall2 (λ col e, col.1 = e.1 ∧ column_is col.2 e.2) cols expected.


(** * Properties *)

(** ** The end-to-end example of the specification *)

Example ex_char_count : char_count (lit "Hello World!") = 12%nat.
Proof. reflexivity. Qed.

Example ex_word_count : @word_count latin_cjk (lit "Hello World!") = 2%nat.
Proof. reflexivity. Qed.

Example ex_capital_ratio :
  @capital_ratio latin_cjk (lit "Hello World!") = (2 # 11)%Q.
Proof. reflexivity. Qed.

Example ex_symbol_count :
  symbol_in_string_count (lit "Hello World!") (lit "!") = 1%nat.
Proof. reflexivity. Qed.

Example ex_transform :
  @transform nat latin_cjk sample_table sample_fit
  = (sample_fit,
     Return (mkFrame [0; 1; 2]%nat
       [(lit "text.char_count", [Int 12; Int 0; Int 6]);
        (lit "text.word_count", [Int 2; Int 0; Int 1]);
        (lit "text.capital_ratio",
         [Float (Fin (2 # 11)); Float (Fin 0); Float (Fin (0 # 6))]);
        (lit "text.lower_ratio",
         [Float (Fin (8 # 11)); Float (Fin 0); Float (Fin (3 # 6))]);
        (lit "text.digit_ratio",
         [Float (Fin (0 # 11)); Float (Fin 0); Float (Fin (3 # 6))]);
        (lit "text.special_ratio",
         [Float (Fin (1 # 11)); Float (Fin 0); Float (Fin (0 # 6))]);
        (lit "text.symbol_count.!", [Int 1; Int 0; Int 0]);
        (lit "text.symbol_ratio.!",
         [Float (Fin (1 # 12)); Float (Fin 0); Float (Fin (0 # 6))]);
        (lit "text.symbol_count.a", [Int 0; Int 0; Int 1]);
        (lit "text.symbol_ratio.a",
         [Float (Fin (0 # 12)); Float (Fin 0); Float (Fin (1 # 6))])])).
Proof. vm_compute. reflexivity. Qed.

Example ex_fit_transform :
  ∃ g' (out : DataFrame nat cell),
    @fit_transform nat latin_cjk (lit "text_special") sample_type_groups
      sample_table sample_unfit = (g', Return out) ∧
    @transform nat latin_cjk sample_table sample_fit = (sample_fit, Return out) ∧
    _is_fit g' = true ∧
    features_in g' = Some [lit "text"] ∧
    features_out g' = Some (names out).
Proof.
  eexists _, _. split; [vm_compute; reflexivity|].
  split; [vm_compute; reflexivity|]. by split_and!.
Qed.

Example ex_transform_unfit :
  @transform nat latin_cjk sample_table (init None)
  = (init None, Raise (AssertionError "FeatureGenerator is not fit.")).
Proof. reflexivity. Qed.

Example ex_abstract_fit_transform :
  (@fit_transform nat latin_cjk (lit "text_special") sample_type_groups
     sample_table (init None)).2
  = Raise NotImplementedError.
Proof. reflexivity. Qed.

Example ex_default_symbols :
  length default_symbols = 16%nat ∧
  NoDup default_symbols ∧
  Forall (λ symbol, length symbol = 1%nat) default_symbols.
Proof.
  split; [reflexivity|]. split.
  - apply (bool_decide_unpack _). by vm_compute.
  - by repeat constructor.
Qed.

(** ** Per-value statistics *)

Section StatisticsFacts.
Context `{U : CharClass}.

Lemma replace_space_nil (value : str) :
  replace_space value = [] ↔ Forall (λ c, c = SPACE) value.
Proof.
  unfold replace_space. induction value as [|c value IH]; simpl.
  - split; [constructor | reflexivity].
  - destruct (N.eqb_spec c SPACE) as [->|Hne]; simpl.
    + rewrite IH. split; [by constructor | by inversion 1].
    + split; [discriminate | by inversion 1].
Qed.

Lemma count_upper_lower (string : str) :
  case_disjoint →
  (py_sum (List.map (λ _, 1) (List.filter isupper string))
   + py_sum (List.map (λ c, int_of_bool (islower c)) string)
   ≤ length string)%nat.
Proof.
  intros Hcase. induction string as [|c string IH]; simpl; [lia|].
  destruct (isupper c) eqn:Hu; simpl.
  - rewrite (Hcase c Hu). simpl. lia.
  - destruct (islower c); simpl; lia.
Qed.

Lemma count_cased (string : str) :
  case_disjoint →
  Forall (λ c, isupper c || islower c = true) string →
  (py_sum (List.map (λ _, 1) (List.filter isupper string))
   + py_sum (List.map (λ c, int_of_bool (islower c)) string)
   = length string)%nat.
Proof.
  intros Hcase Hall. induction Hall as [|c string Hc _ IH]; simpl; [done|].
  destruct (isupper c) eqn:Hu; simpl in *.
  - rewrite (Hcase c Hu). simpl. lia.
  - rewrite Hc. simpl. lia.
Qed.

Lemma Zpos_of_nat (n : nat) : (0 < n)%nat → Z.pos (Pos.of_nat n) = Z.of_nat n.
Proof. intros Hn. destruct n; [lia|]. by rewrite <- Pos.of_nat_succ, Zpos_P_of_succ_nat, Nat2Z.inj_succ. Qed.

Lemma truediv_plus (a b n : nat) :
  (truediv a n + truediv b n == truediv (a + b) n)%Q.
Proof.
  unfold truediv, Qeq, Qplus. simpl.
  rewrite Pos2Z.inj_mul, Nat2Z.inj_add. ring.
Qed.

Lemma truediv_le_1 (k n : nat) :
  (0 < n)%nat → (k ≤ n)%nat → (truediv k n <= 1)%Q.
Proof.
  intros Hn Hk. unfold truediv, Qle. simpl.
  rewrite Zpos_of_nat by done. lia.
Qed.

Lemma truediv_same (n : nat) : (0 < n)%nat → (truediv n n == 1)%Q.
Proof.
  intros Hn. unfold truediv, Qeq. simpl.
  rewrite Zpos_of_nat by done. lia.
Qed.

(** C4: when nothing is left of a value once its spaces are removed, its
    capital, lower, digit and special ratios are all 0. *)
Theorem C4_ratios_of_blank (value : str) :
  replace_space value = [] →
  capital_ratio value = 0%Q ∧ lower_ratio value = 0%Q ∧
  digit_ratio value = 0%Q ∧ special_ratio value = 0%Q.
Proof.
  intros Hblank.
  unfold capital_ratio, lower_ratio, digit_ratio, special_ratio.
  by rewrite Hblank.
Qed.

(** C5, as amended: with the disjoint Uppercase and Lowercase properties of
    the character database, the capital and lower ratios of a value sum to
    at most 1, and to exactly 1 when the space-stripped value is non-empty
    and each of its characters is upper-case or lower-case. *)
Theorem C5_capital_plus_lower (value : str) :
  case_disjoint →
  (capital_ratio value + lower_ratio value <= 1)%Q ∧
  (replace_space value ≠ [] →
   Forall (λ c, isupper c || islower c = true) (replace_space value) →
   (capital_ratio value + lower_ratio value == 1)%Q).
Proof.
  intros Hcase. unfold capital_ratio, lower_ratio.
  destruct (replace_space value) as [|c string] eqn:Hs.
  - split; [done | by intros []].
  - set (s := c :: string).
    assert (0 < length s)%nat as Hlen by (simpl; lia).
    split.
    + rewrite truediv_plus. apply truediv_le_1; [done|].
      by apply count_upper_lower.
    + intros _ Hall. rewrite truediv_plus, count_cased by done.
      by apply truediv_same.
Qed.

End StatisticsFacts.

(** ** Words *)

Section SplitFacts.
Context `{U : CharClass}.

Lemma split_scan_spaces (ws rest : str) :
  Forall (λ c, isspace c = true) ws →
  split_scan None (ws ++ rest) = split_scan None rest.
Proof.
  induction 1 as [|c ws Hc _ IH]; simpl; [done|]. by rewrite Hc.
Qed.

Lemma split_scan_word (acc w rest : str) :
  Forall (λ c, isspace c = false) w →
  split_scan (Some acc) (w ++ rest) = split_scan (Some (acc ++ w)) rest.
Proof.
  intros Hw. revert acc.
  induction Hw as [|c w Hc _ IH]; intros acc; simpl.
  - by rewrite app_nil_r.
  - rewrite Hc, IH. by rewrite <- app_assoc.
Qed.

Lemma split_scan_start (w rest : str) :
  w ≠ [] →
  Forall (λ c, isspace c = false) w →
  split_scan None (w ++ rest) = split_scan (Some w) rest.
Proof.
  intros Hne Hw. destruct Hw as [|c w Hc Hw]; [done|]. simpl.
  rewrite Hc. simpl. by rewrite split_scan_word.
Qed.

Lemma split_scan_close (w rest : str) :
  (rest = [] ∨ ∃ c r, rest = c :: r ∧ isspace c = true) →
  split_scan (Some w) rest = w :: split_scan None rest.
Proof.
  intros [->|(c & r & -> & Hc)]; simpl; [done|]. by rewrite Hc.
Qed.

(** A tokenisation in the sense of the specification is the list that
    [split] returns. *)
Lemma tokens_of_split (value : str) (toks : list str) :
  tokens_of value toks → split value = toks.
Proof.
  unfold split. induction 1 as [ws Hws|ws w rest toks Hws Hne Hw Hrest _ IH].
  - rewrite <- (app_nil_r ws). by rewrite split_scan_spaces.
  - rewrite split_scan_spaces, split_scan_start, split_scan_close by done.
    by rewrite IH.
Qed.

Lemma tokens_of_space (c : char) (value : str) (toks : list str) :
  isspace c = true → tokens_of value toks → tokens_of (c :: value) toks.
Proof.
  intros Hc Htok. destruct Htok as [ws Hws|ws w rest toks Hws Hne Hw Hrest Htok].
  - constructor. by constructor.
  - change (c :: ws ++ w ++ rest) with ((c :: ws) ++ w ++ rest).
    constructor; [by constructor|done..].
Qed.

Lemma split_scan_tokens (value : str) :
  tokens_of value (split_scan None value) ∧
  ∀ acc, acc ≠ [] → Forall (λ c, isspace c = false) acc →
         tokens_of (acc ++ value) (split_scan (Some acc) value).
Proof.
  induction value as [|c value [IH0 IH1]]; simpl.
  - split; [by constructor|]. intros acc Hne Hacc.
    apply (tokens_word [] acc [] []); [constructor|done|done|by left|by constructor].
  - destruct (isspace c) eqn:Hc.
    + split; [by apply tokens_of_space|]. intros acc Hne Hacc.
      apply (tokens_word [] acc (c :: value)); [constructor|done|done|right; eauto|].
      by apply tokens_of_space.
    + split.
      * apply (IH1 [c]); [done|]. by repeat constructor.
      * intros acc Hne Hacc. rewrite (cons_middle c acc value), app_assoc.
        apply IH1; [by destruct acc|].
        apply Forall_app. split; [done|by repeat constructor].
Qed.

(** Every value has a tokenisation: the one [split] computes. *)
Lemma split_tokens (value : str) : tokens_of value (split value).
Proof. apply split_scan_tokens. Qed.

(** C9: the character count of a value is its number of characters, and
    its word count is the number of its whitespace-delimited tokens. *)
Theorem C9_char_and_word_count (value : str) (toks : list str) :
  tokens_of value toks →
  char_count value = length value ∧ word_count value = length toks.
Proof.
  intros Htok. split; [done|].
  unfold word_count. by rewrite (tokens_of_split value toks).
Qed.

End SplitFacts.

(** ** Symbols *)

Lemma symbol_count_filter (value symbol : str) :
  symbol_in_string_count value symbol =
  length (List.filter (λ c, bool_decide ([c] = symbol)) value).
Proof.
  unfold symbol_in_string_count. destruct value as [|c0 value]; [done|].
  generalize (c0 :: value). intros l.
  induction (List.filter _ l) as [|c l' IH]; simpl; [done|]. by rewrite IH.
Qed.

Lemma symbol_count_le (value symbol : str) :
  (symbol_in_string_count value symbol ≤ char_count value)%nat.
Proof.
  rewrite symbol_count_filter. unfold char_count.
  induction value as [|c value IH]; simpl; [done|].
  destruct (bool_decide _); simpl; lia.
Qed.

Lemma symbol_count_not_single (value symbol : str) :
  length symbol ≠ 1%nat → symbol_in_string_count value symbol = 0%nat.
Proof.
  intros Hlen. rewrite symbol_count_filter.
  induction value as [|c value IH]; simpl; [done|].
  rewrite bool_decide_eq_false_2; [done|]. by intros <-.
Qed.

(** ** Columns of a frame *)

Section FrameFacts.
Context {A : Type}.
Implicit Types (cols : list (str * list A)) (name : str) (v : list A).

Lemma get_set_eq name v cols :
  get_column name (set_column name v cols) = Some v.
Proof.
  induction cols as [|[n x] cols IH]; simpl.
  - by rewrite decide_True.
  - destruct (decide (n = name)) as [->|Hne]; simpl.
    + by rewrite decide_True.
    + by rewrite decide_False.
Qed.

Lemma get_set_ne name name' v cols :
  name ≠ name' →
  get_column name' (set_column name v cols) = get_column name' cols.
Proof.
  intros Hne. induction cols as [|[n x] cols IH]; simpl.
  - by rewrite decide_False.
  - destruct (decide (n = name)) as [->|Hn]; simpl.
    + by rewrite !decide_False.
    + by rewrite IH.
Qed.

Lemma set_set name v v' cols :
  set_column name v' (set_column name v cols) = set_column name v' cols.
Proof.
  induction cols as [|[n x] cols IH]; simpl.
  - by rewrite decide_True.
  - destruct (decide (n = name)) as [->|Hn]; simpl.
    + by rewrite decide_True.
    + by rewrite decide_False, IH.
Qed.

Lemma set_same name v cols :
  get_column name cols = Some v → set_column name v cols = cols.
Proof.
  induction cols as [|[n x] cols IH]; simpl; [done|].
  destruct (decide (n = name)) as [->|Hn]; [by intros [= ->]|].
  intros Hget. by rewrite IH.
Qed.

Lemma set_fresh name v cols :
  get_column name cols = None → set_column name v cols = cols ++ [(name, v)].
Proof.
  induction cols as [|[n x] cols IH]; simpl; [done|].
  destruct (decide (n = name)) as [->|Hn]; [done|].
  intros Hget. by rewrite IH.
Qed.

Lemma get_app name cols1 cols2 :
  get_column name (cols1 ++ cols2) =
  match get_column name cols1 with
  | Some v => Some v
  | None => get_column name cols2
  end.
Proof.
  induction cols1 as [|[n x] cols1 IH]; simpl; [done|].
  by destruct (decide (n = name)).
Qed.

Lemma get_column_Some name cols :
  name ∈ cols.*1 → is_Some (get_column name cols).
Proof.
  induction cols as [|[n x] cols IH]; simpl.
  - by intros ?%elem_of_nil.
  - intros [->|Hin]%elem_of_cons.
    + rewrite decide_True by done. eauto.
    + destruct (decide (n = name)); eauto.
Qed.

Lemma select_columns_Some cols (l : list str) :
  Forall (λ name, name ∈ cols.*1) l →
  ∃ sel, select_columns cols l = Some sel ∧ sel.*1 = l ∧
         ∀ name, name ∈ l → get_column name sel = get_column name cols.
Proof.
  induction 1 as [|n l Hn _ (sel & Hsel & Hnames & Hget)]; simpl.
  - exists []. split_and!; [done..|]. by intros ? ?%elem_of_nil.
  - destruct (get_column_Some n cols Hn) as [v Hv]. rewrite Hv, Hsel.
    exists ((n, v) :: sel). split_and!; [done|simpl; by f_equal|].
    intros name Hin. simpl. destruct (decide (n = name)) as [->|Hne]; [done|].
    apply Hget. by apply elem_of_cons in Hin as [->|].
Qed.

End FrameFacts.

(** ** Column labels *)

Lemma label_inj (feature suffix1 suffix2 : str) :
  feature ++ suffix1 = feature ++ suffix2 → suffix1 = suffix2.
Proof. apply app_inv_head. Qed.

(** Two labels of one feature whose statistics differ in their literal
    part. *)
Ltac label_neq :=
  let H := fresh in
  intros H; apply label_inj in H; cbn in H; discriminate H.

Lemma count_label_inj (feature s1 s2 : str) :
  feature ++ lit ".symbol_count." ++ s1 = feature ++ lit ".symbol_count." ++ s2 →
  s1 = s2.
Proof. intros H%label_inj. by apply app_inv_head in H. Qed.

Lemma ratio_label_inj (feature s1 s2 : str) :
  feature ++ lit ".symbol_ratio." ++ s1 = feature ++ lit ".symbol_ratio." ++ s2 →
  s1 = s2.
Proof. intros H%label_inj. by apply app_inv_head in H. Qed.

Lemma count_ratio_label (feature s1 s2 : str) :
  feature ++ lit ".symbol_count." ++ s1 ≠ feature ++ lit ".symbol_ratio." ++ s2.
Proof. label_neq. Qed.

Lemma char_count_label (feature s : str) :
  feature ++ lit ".symbol_count." ++ s ≠ feature ++ lit ".char_count".
Proof. label_neq. Qed.

Section ColumnFacts.
Context `{U : CharClass}.
Implicit Types (values : list str) (feature symbol : str).

Lemma get_char_count values feature (more : list (str * list cell)) :
  get_column (feature ++ lit ".char_count") (fixed_columns values feature ++ more)
  = Some (List.map (λ value, Int (Z.of_nat (char_count value))) values).
Proof. simpl. by rewrite decide_True. Qed.

Lemma get_fixed_count values feature symbol :
  get_column (feature ++ lit ".symbol_count." ++ symbol)
    (fixed_columns values feature) = None.
Proof. simpl. by rewrite !decide_False by label_neq. Qed.

Lemma get_fixed_ratio values feature symbol :
  get_column (feature ++ lit ".symbol_ratio." ++ symbol)
    (fixed_columns values feature) = None.
Proof. simpl. by rewrite !decide_False by label_neq. Qed.

Lemma get_symbol_count values feature symbol (seen : list str) :
  get_column (feature ++ lit ".symbol_count." ++ symbol)
    (flat_map (symbol_columns values feature) seen)
  = if bool_decide (symbol ∈ seen)
    then Some (List.map (λ value, Int (Z.of_nat (symbol_in_string_count value symbol))) values)
    else None.
Proof.
  induction seen as [|s seen IH].
  - by rewrite bool_decide_eq_false_2 by apply not_elem_of_nil.
  - cbn [flat_map symbol_columns app get_column].
    destruct (decide (s = symbol)) as [->|Hne].
    + by rewrite decide_True, bool_decide_eq_true_2 by (done || by left).
    + rewrite decide_False by (by intros ?%count_label_inj).
      rewrite decide_False by (intros H; symmetry in H; by apply count_ratio_label in H).
      rewrite IH. destruct (decide (symbol ∈ seen)) as [Hin|Hin].
      * by rewrite !bool_decide_eq_true_2 by (done || by right).
      * rewrite !bool_decide_eq_false_2; [done|by intros [->|]%elem_of_cons|done].
Qed.

Lemma get_symbol_ratio values feature symbol (seen : list str) :
  get_column (feature ++ lit ".symbol_ratio." ++ symbol)
    (flat_map (symbol_columns values feature) seen)
  = if bool_decide (symbol ∈ seen)
    then Some (List.map (λ value, symbol_ratio_cell value symbol) values)
    else None.
Proof.
  induction seen as [|s seen IH].
  - by rewrite bool_decide_eq_false_2 by apply not_elem_of_nil.
  - cbn [flat_map symbol_columns app get_column].
    rewrite decide_False by apply count_ratio_label.
    destruct (decide (s = symbol)) as [->|Hne].
    + by rewrite decide_True, bool_decide_eq_true_2 by (done || by left).
    + rewrite decide_False by (by intros ?%ratio_label_inj).
      rewrite IH. destruct (decide (symbol ∈ seen)) as [Hin|Hin].
      * by rewrite !bool_decide_eq_true_2 by (done || by right).
      * rewrite !bool_decide_eq_false_2; [done|by intros [->|]%elem_of_cons|done].
Qed.

End ColumnFacts.

(** ** Running the text generator *)

Lemma zip_with_map_same {A B C D : Type} (f : B → C → D) (g : A → B)
    (h : A → C) (l : list A) :
  zip_with f (List.map g l) (List.map h l) = List.map (λ x, f (g x) (h x)) l.
Proof. induction l as [|x l IH]; simpl; [done|]. by rewrite IH. Qed.

Lemma first_occurrences_NoDup (seen symbols : list str) :
  NoDup (seen ++ symbols) → first_occurrences seen symbols = seen ++ symbols.
Proof.
  revert seen. induction symbols as [|s symbols IH]; intros seen Hnd; simpl.
  - by rewrite app_nil_r.
  - rewrite decide_False.
    + rewrite IH; [by rewrite <- app_assoc|]. by rewrite <- app_assoc.
    + apply NoDup_app in Hnd as (_ & Hdisj & _). intros Hin.
      apply (Hdisj s Hin). by left.
Qed.

Lemma distinct_symbols_NoDup (symbols : list str) :
  NoDup symbols → distinct_symbols symbols = symbols.
Proof. intros Hnd. by apply (first_occurrences_NoDup []). Qed.

Section TextSpecialFacts.
Context {L : Type} `{U : CharClass}.
Implicit Types (X : Series L str) (feature symbol : str) (g : Generator).

Lemma symbol_step_run X feature symbol (df : DataFrame L cell) g :
  get_column (feature ++ lit ".char_count") (columns df)
  = Some (List.map (λ value, Int (Z.of_nat (char_count value))) (s_values X)) →
  TextSpecialFeatureGenerator.symbol_step X feature symbol df g
  = (g, Return (mkFrame (index df)
       (set_column (feature ++ lit ".symbol_ratio." ++ symbol)
          (List.map (λ value, symbol_ratio_cell value symbol) (s_values X))
          (set_column (feature ++ lit ".symbol_count." ++ symbol)
             (List.map (λ value, Int (Z.of_nat (symbol_in_string_count value symbol)))
                (s_values X))
             (columns df))))).
Proof.
  intros Hchars.
  unfold TextSpecialFeatureGenerator.symbol_step, mbind, M_bind, getitem,
    setitem, mret, M_ret, series_truediv, fillna.
  cbn [columns index s_values s_index].
  rewrite get_set_eq. cbv beta iota.
  rewrite get_set_ne by apply char_count_label. rewrite Hchars. cbv beta iota.
  cbn [columns index s_values s_index].
  rewrite get_set_eq. cbv beta iota. cbn [columns index s_values s_index].
  rewrite set_set.
  unfold TextSpecialFeatureGenerator.comprehension, TextSpecialFeatureGenerator.of_count.
  by rewrite zip_with_map_same, List.map_map.
Qed.

Lemma symbols_loop X feature (symbols seen : list str) g :
  for_in symbols (TextSpecialFeatureGenerator.symbol_step X feature)
    (mkFrame (s_index X) (text_special_columns (s_values X) feature seen)) g
  = (g, Return (mkFrame (s_index X)
       (text_special_columns (s_values X) feature
          (first_occurrences seen symbols)))).
Proof.
  revert seen. induction symbols as [|s symbols IH]; intros seen; [done|].
  cbn [for_in first_occurrences]. unfold mbind, M_bind.
  rewrite symbol_step_run by apply get_char_count.
  cbn [columns index].
  destruct (decide (s ∈ seen)) as [Hin|Hin].
  - rewrite (set_same (feature ++ lit ".symbol_count." ++ s)).
    + rewrite set_same; [apply IH|]. unfold text_special_columns.
      by rewrite get_app, get_fixed_ratio, get_symbol_ratio, bool_decide_eq_true_2.
    + unfold text_special_columns.
      by rewrite get_app, get_fixed_count, get_symbol_count, bool_decide_eq_true_2.
  - rewrite (set_fresh (feature ++ lit ".symbol_count." ++ s)).
    + rewrite set_fresh.
      * replace ((text_special_columns (s_values X) feature seen ++ _) ++ _)
          with (text_special_columns (s_values X) feature (seen ++ [s]));
          [apply IH|].
        unfold text_special_columns. rewrite flat_map_app. simpl.
        by rewrite <- !app_assoc.
      * unfold text_special_columns.
        rewrite !get_app, get_fixed_ratio, get_symbol_ratio.
        rewrite bool_decide_eq_false_2 by done. simpl.
        by rewrite decide_False by apply count_ratio_label.
    + unfold text_special_columns.
      by rewrite get_app, get_fixed_count, get_symbol_count, bool_decide_eq_false_2.
Qed.

(** The table generated for one input column. *)
Lemma generate_text_special_run X feature g :
  TextSpecialFeatureGenerator._generate_text_special X feature g
  = (g, Return (mkFrame (s_index X)
       (text_special_columns (s_values X) feature
          (distinct_symbols (_symbols g))))).
Proof.
  unfold TextSpecialFeatureGenerator._generate_text_special, mbind, M_bind,
    attr, distinct_symbols.
  cbv beta iota zeta. rewrite <- symbols_loop. f_equal.
  unfold setitem, DataFrame_of_index, text_special_columns. cbn [index columns].
  f_equal. by repeat (simpl; rewrite decide_False by label_neq).
Qed.

End TextSpecialFacts.

Lemma elem_of_first_occurrences (x : str) (seen symbols : list str) :
  x ∈ first_occurrences seen symbols ↔ x ∈ seen ∨ x ∈ symbols.
Proof.
  revert seen. induction symbols as [|s symbols IH]; intros seen; simpl.
  - split; [by left|]. by intros [|?%elem_of_nil].
  - destruct (decide (s ∈ seen)) as [Hin|Hin]; rewrite IH.
    + rewrite elem_of_cons. split; [tauto|]. intros [?|[->|?]]; tauto.
    + rewrite elem_of_app, list_elem_of_singleton, elem_of_cons. tauto.
Qed.

Lemma elem_of_distinct_symbols (x : str) (symbols : list str) :
  x ∈ distinct_symbols symbols ↔ x ∈ symbols.
Proof.
  unfold distinct_symbols. rewrite elem_of_first_occurrences.
  split; [by intros [?%elem_of_nil|]|by right].
Qed.

Lemma numeric_column_length (values : list cell) :
  length (numeric_column values) = length values.
Proof.
  unfold numeric_column. destruct (forallb _ _); [done|apply length_map].
Qed.

Section NamesFacts.
Context `{U : CharClass}.

Lemma text_special_names (values : list str) (feature : str)
    (symbols : list str) :
  (text_special_columns values feature symbols).*1
  = List.map (λ statistic, feature ++ lit "." ++ statistic) (statistics symbols).
Proof.
  unfold text_special_columns, statistics.
  rewrite fmap_app, List.map_app. f_equal.
  induction symbols as [|s symbols IH]; [done|].
  cbn [flat_map]. rewrite fmap_app, List.map_app. by f_equal.
Qed.

Lemma text_special_lengths (values : list str) (feature : str)
    (symbols : list str) :
  Forall (λ col, length col.2 = length values)
    (text_special_columns values feature symbols).
Proof.
  unfold text_special_columns. apply Forall_app. split.
  - repeat constructor; simpl; rewrite ?numeric_column_length;
      by rewrite length_map.
  - induction symbols as [|s symbols IH]; [constructor|].
    cbn [flat_map]. apply Forall_app. split; [|done].
    repeat constructor; simpl; by rewrite length_map.
Qed.

Lemma statistics_length (symbols : list str) :
  length (statistics symbols) = (6 + 2 * length symbols)%nat.
Proof.
  unfold statistics. rewrite length_app. simpl. f_equal.
  induction symbols as [|s symbols IH]; simpl; lia.
Qed.

Lemma expected_names_length (features symbols : list str) :
  length (expected_names features symbols)
  = (length features * (6 + 2 * length symbols))%nat.
Proof.
  unfold expected_names.
  induction features as [|f features IH]; [done|].
  cbn [flat_map]. rewrite length_app, IH, length_map, statistics_length.
  simpl. lia.
Qed.

Lemma expected_columns_names {L : Type} (X : DataFrame L str)
    (features symbols : list str) :
  (expected_columns X features symbols).*1 = expected_names features symbols.
Proof.
  unfold expected_columns, expected_names.
  induction features as [|f features IH]; [done|].
  cbn [flat_map]. by rewrite fmap_app, IH, text_special_names.
Qed.

End NamesFacts.

Section FeaturesFacts.
Context {L : Type} `{U : CharClass}.
Implicit Types (X : DataFrame L str) (g : Generator).

Lemma features_loop X (features : list str) (acc : list (DataFrame L cell)) g :
  Forall (λ name, name ∈ names X) features →
  for_in features
    (λ nlp_feature X_text_special_combined,
       column ← getitem X nlp_feature;
       df_text_special ←
         TextSpecialFeatureGenerator._generate_text_special column nlp_feature;
       mret (X_text_special_combined ++ [df_text_special]))
    acc g
  = (g, Return (acc ++
       List.map (λ feature,
                   mkFrame (index X)
                     (text_special_columns (column_values X feature) feature
                        (distinct_symbols (_symbols g))))
         features)).
Proof.
  intros Hin. revert acc.
  induction Hin as [|f features Hf _ IH]; intros acc; simpl.
  - by rewrite app_nil_r.
  - unfold mbind at 1, M_bind at 1. unfold mbind at 1, M_bind at 1.
    unfold getitem at 1, column_values.
    destruct (get_column_Some f (columns X) Hf) as [v Hv]. rewrite Hv.
    unfold mret at 1, M_ret at 1. unfold mbind at 1, M_bind at 1.
    rewrite generate_text_special_run. unfold mret at 1, M_ret at 1.
    rewrite IH. by rewrite <- app_assoc.
Qed.

Lemma concat_frames {A B : Type} (idx : list L)
    (F : A → list (str * list B)) (l : list A) :
  concat (List.map columns (List.map (λ x, mkFrame idx (F x)) l)) = flat_map F l.
Proof. induction l as [|x l IH]; simpl; [done|]. by rewrite IH. Qed.

(** The table the text generator builds from the columns [features] of
    [X]. *)
Lemma generate_features_run X (features : list str) g :
  features_in g = Some features →
  Forall (λ name, name ∈ names X) features →
  TextSpecialFeatureGenerator._generate_features_text_special X g
  = (g, Return (mkFrame (index X)
       (expected_columns X features (distinct_symbols (_symbols g))))).
Proof.
  intros Hfeat Hin.
  unfold TextSpecialFeatureGenerator._generate_features_text_special.
  unfold mbind at 1, M_bind at 1, attr. rewrite Hfeat.
  destruct features as [|f features]; [done|].
  unfold mbind at 1, M_bind at 1. rewrite (features_loop X _ [] g Hin).
  unfold expected_columns. by rewrite <- (concat_frames (index X)).
Qed.

End FeaturesFacts.

(** ** Tame methods *)

Create HintDb tame.

Section Tame.
Context {L : Type} `{U : CharClass}.

Lemma tame_ret {A : Type} (a : A) : tame (mret a).
Proof. by split_and!. Qed.

Lemma tame_raise_KeyError {A : Type} : tame (raise (A:=A) KeyError).
Proof. split_and!; [done| |done]. by intros g e [= <-]. Qed.

Lemma tame_raise_ValueError {A : Type} : tame (raise (A:=A) ValueError).
Proof. split_and!; [done| |done]. by intros g e [= <-]. Qed.

Lemma tame_features_in : tame (attr features_in).
Proof.
  split_and!; [done..|]. intros g1 g2 [= Hf _]. unfold attr. simpl. by rewrite Hf.
Qed.

Lemma tame_symbols : tame (attr _symbols).
Proof.
  split_and!; [done..|]. intros g1 g2 [= _ Hs]. unfold attr. simpl. by rewrite Hs.
Qed.

Lemma tame_bind {A B : Type} (m : M A) (f : A → M B) :
  tame m → (∀ a, tame (f a)) → tame (m ≫= f).
Proof.
  intros (Hst & Herr & Hcfg) Hf. unfold mbind, M_bind. split_and!.
  - intros g. specialize (Hst g). destruct (m g) as [g' [a|e]]; simpl in *; subst.
    + apply Hf.
    + done.
  - intros g e. specialize (Hst g). specialize (Herr g).
    destruct (m g) as [g' [a|e']]; simpl in *; subst.
    + apply Hf.
    + intros [= <-]. by apply Herr.
  - intros g1 g2 Hc. specialize (Hcfg g1 g2 Hc).
    pose proof (Hst g1) as H1. pose proof (Hst g2) as H2.
    destruct (m g1) as [g1' [a1|e1]], (m g2) as [g2' [a2|e2]];
      simpl in *; subst; try done; injection Hcfg as ->; [by apply Hf|done].
Qed.

Lemma tame_for_in {A S : Type} (l : list A) (body : A → S → M S) (s : S) :
  (∀ x s, tame (body x s)) → tame (for_in l body s).
Proof.
  intros Hbody. revert s. induction l as [|x l IH]; intros s; simpl.
  - apply tame_ret.
  - apply tame_bind; [apply Hbody|done].
Qed.

Lemma tame_getitem {A : Type} (df : DataFrame L A) (name : str) :
  tame (getitem df name).
Proof.
  unfold getitem. destruct (get_column _ _);
    [apply tame_ret|apply tame_raise_KeyError].
Qed.

Lemma tame_concat_axis1 {A : Type} (frames : list (DataFrame L A)) :
  tame (concat_axis1 frames).
Proof.
  destruct frames; [apply tame_raise_ValueError|apply tame_ret].
Qed.

Hint Resolve tame_ret tame_features_in tame_symbols tame_getitem
  tame_concat_axis1 : tame.
Hint Extern 2 (tame (_ ≫= _)) => apply tame_bind; [|intros ?] : tame.
Hint Extern 2 (tame (for_in _ _ _)) => apply tame_for_in; intros ? ? : tame.

Lemma tame_symbol_step (X : Series L str) (feature symbol : str)
    (df : DataFrame L cell) :
  tame (TextSpecialFeatureGenerator.symbol_step X feature symbol df).
Proof. unfold TextSpecialFeatureGenerator.symbol_step. auto 10 with tame. Qed.

Lemma tame_generate_text_special (X : Series L str) (feature : str) :
  tame (TextSpecialFeatureGenerator._generate_text_special X feature).
Proof.
  unfold TextSpecialFeatureGenerator._generate_text_special.
  pose proof tame_symbol_step. auto 10 with tame.
Qed.

Lemma tame_transform (X : DataFrame L str) :
  tame (TextSpecialFeatureGenerator._transform X).
Proof.
  unfold TextSpecialFeatureGenerator._transform,
    TextSpecialFeatureGenerator._generate_features_text_special.
  apply tame_bind; [apply tame_features_in|]. intros [[|f features]|].
  - apply tame_ret.
  - pose proof tame_generate_text_special. auto 10 with tame.
  - apply tame_ret.
Qed.

Lemma tame_fit_transform (S_TEXT_SPECIAL : str) (X : DataFrame L str) :
  tame (TextSpecialFeatureGenerator._fit_transform S_TEXT_SPECIAL X).
Proof.
  unfold TextSpecialFeatureGenerator._fit_transform.
  pose proof tame_transform. auto 10 with tame.
Qed.

End Tame.

(** ** The entry points of the base class *)

Section EntryPoints.
Context {L : Type} `{U : CharClass}.
Variable S_TEXT_SPECIAL : str.
Variable get_type_family_groups_df : DataFrame L cell → gmap str (list str).
Implicit Types (X : DataFrame L str) (g : Generator).

Lemma fit_transform_fit X g :
  _is_fit g = true →
  fit_transform S_TEXT_SPECIAL get_type_family_groups_df X g
  = (g, Raise (AssertionError "FeatureGenerator is already fit.")).
Proof.
  intros Hfit. unfold fit_transform, mbind, M_bind, attr. by rewrite Hfit.
Qed.

Lemma transform_unfit X g :
  _is_fit g = false →
  transform X g = (g, Raise (AssertionError "FeatureGenerator is not fit.")).
Proof.
  intros Hfit. unfold transform, mbind, M_bind, attr. by rewrite Hfit.
Qed.

Lemma transform_fit X g :
  _is_fit g = true →
  transform X g = (X_in ← getitem_list X (features_in g); _transform X_in) g.
Proof.
  intros Hfit. unfold transform, mbind, M_bind, attr. by rewrite Hfit.
Qed.

Lemma getitem_list_state {A : Type} (X : DataFrame L A)
    (names : option (list str)) g :
  (getitem_list X names g).1 = g ∧
  ∀ e, (getitem_list X names g).2 = Raise e → e = KeyError.
Proof.
  unfold getitem_list. destruct names as [l|]; [|by split; [|intros e [= <-]]].
  destruct (select_columns _ _); split; try done; by intros e [= <-].
Qed.

(** What [self._transform] does, by the class of [self]. *)
Lemma dispatch_transform X g :
  _transform X g =
  match class_of g with
  | Abstract => (g, Raise NotImplementedError)
  | TextSpecial => TextSpecialFeatureGenerator._transform X g
  end.
Proof. unfold _transform, mbind, M_bind, attr. by destruct (class_of g). Qed.

Lemma dispatch_fit_transform X g :
  _fit_transform S_TEXT_SPECIAL X g =
  match class_of g with
  | Abstract => (g, Raise NotImplementedError)
  | TextSpecial =>
      TextSpecialFeatureGenerator._fit_transform S_TEXT_SPECIAL X g
  end.
Proof. unfold _fit_transform, mbind, M_bind, attr. by destruct (class_of g). Qed.

(** [transform] leaves the attributes of [self] as they are. *)
Lemma transform_state X g : (transform X g).1 = g.
Proof.
  destruct (_is_fit g) eqn:Hfit; [|by rewrite transform_unfit].
  rewrite transform_fit by done. unfold mbind, M_bind.
  destruct (getitem_list_state X (features_in g) g) as [Hst _].
  destruct (getitem_list X (features_in g) g) as [g' [X_in|e]];
    simpl in Hst; subst g'; [|done].
  rewrite dispatch_transform. destruct (class_of g); [done|].
  apply tame_transform.
Qed.


(** [fit_transform] on an instance that is not fit, step by step. *)
Lemma fit_transform_run X g :
  _is_fit g = false →
  fit_transform S_TEXT_SPECIAL get_type_family_groups_df X g =
  let g1 := match features_in g with
            | Some _ => g
            | None => set_features_in (names X) g
            end in
  match getitem_list X (features_in g1) g1 with
  | (g2, Raise e) => (g2, Raise e)
  | (g2, Return X_in) =>
      match _fit_transform S_TEXT_SPECIAL X_in g2 with
      | (g3, Raise e) => (g3, Raise e)
      | (g3, Return (X_out, special)) =>
          (set_is_fit true
             (set_feature_types_metadata
                (mkMetadata (get_type_family_groups_df X_out) special)
                (set_features_out (names X_out) g3)),
           Return X_out)
      end
  end.
Proof.
  intros Hfit.
  unfold fit_transform, mbind, M_bind, attr, assign, mret, M_ret.
  rewrite Hfit. cbv beta iota zeta.
  destruct (features_in g) as [l|] eqn:Hfeat; cbv beta iota.
  - rewrite Hfeat.
    destruct (getitem_list X (Some l) g) as [g2 [X_in|e]]; [|done].
    by destruct (_fit_transform S_TEXT_SPECIAL X_in g2) as [g3 [[X_out sp]|e]].
  - cbn [features_in set_features_in].
    destruct (getitem_list X _ _) as [g2 [X_in|e]]; [|done].
    by destruct (_fit_transform S_TEXT_SPECIAL X_in g2) as [g3 [[X_out sp]|e]].
Qed.



End EntryPoints.

(** ** The generated table *)

Section Claims.
Context {L : Type} `{U : CharClass}.
Variable S_TEXT_SPECIAL : str.
Variable get_type_family_groups_df : DataFrame L cell → gmap str (list str).
Implicit Types (X : DataFrame L str) (g : Generator).

Lemma get_column_elem {A : Type} (name : str) (v : list A)
    (cols : list (str * list A)) :
  get_column name cols = Some v → (name, v) ∈ cols.
Proof.
  induction cols as [|[n x] cols IH]; simpl; [done|].
  destruct (decide (n = name)) as [->|Hne].
  - intros [= ->]. by left.
  - intros Hget. right. by apply IH.
Qed.

Lemma column_values_length X (name : str) :
  wf_frame X → name ∈ names X →
  length (column_values X name) = length (index X).
Proof.
  intros [_ Hlen] Hin. unfold column_values.
  destruct (get_column_Some name (columns X) Hin) as [v Hv]. rewrite Hv. simpl.
  apply get_column_elem in Hv. rewrite Forall_forall in Hlen.
  by apply (Hlen (name, v)).
Qed.

Lemma expected_columns_lengths X (features symbols : list str) :
  wf_frame X → Forall (λ name, name ∈ names X) features →
  Forall (λ col, length col.2 = length (index X))
    (expected_columns X features symbols).
Proof.
  intros Hwf. unfold expected_columns.
  induction 1 as [|f features Hf _ IH]; [constructor|].
  cbn [flat_map]. apply Forall_app. split; [|done].
  rewrite <- (column_values_length X f) by done. apply text_special_lengths.
Qed.

Lemma expected_columns_ext (X X' : DataFrame L str) (features symbols : list str) :
  Forall (λ name, get_column name (columns X') = get_column name (columns X))
    features →
  expected_columns X' features symbols = expected_columns X features symbols.
Proof.
  unfold expected_columns, column_values.
  induction 1 as [|f features Hf _ IH]; [done|].
  cbn [flat_map]. by rewrite Hf, IH.
Qed.

(** The table [transform] returns on the columns [features] of [X]. *)
Lemma transform_run X g (features : list str) :
  class_of g = TextSpecial → _is_fit g = true →
  features_in g = Some features →
  Forall (λ name, name ∈ names X) features →
  transform X g
  = (g, Return (mkFrame (index X)
       (expected_columns X features (distinct_symbols (_symbols g))))).
Proof.
  intros Hcls Hfit Hfeat Hin. rewrite transform_fit by done.
  unfold mbind, M_bind, getitem_list. rewrite Hfeat.
  destruct (select_columns_Some (columns X) features Hin)
    as (sel & -> & Hnames & Hget).
  unfold mret, M_ret. rewrite dispatch_transform, Hcls.
  unfold TextSpecialFeatureGenerator._transform.
  rewrite (generate_features_run _ features) by
    (done || (unfold names; cbn [columns]; rewrite Hnames;
              apply Forall_forall; auto)).
  cbn [index]. do 3 f_equal. apply expected_columns_ext.
  apply Forall_forall. intros name Hname. cbn [columns]. by apply Hget.
Qed.

(** C8: with an empty list of input columns the transform step returns a
    table without columns over the row index of its input. *)
Theorem C8_no_input_columns X g :
  features_in g = Some [] →
  TextSpecialFeatureGenerator._transform X g = (g, Return (mkFrame (index X) []))
  ∧ (class_of g = TextSpecial → _is_fit g = true →
     transform X g = (g, Return (mkFrame (index X) []))).
Proof.
  intros Hfeat. split.
  - unfold TextSpecialFeatureGenerator._transform,
      TextSpecialFeatureGenerator._generate_features_text_special,
      mbind, M_bind, attr.
    by rewrite Hfeat.
  - intros Hcls Hfit. by rewrite (transform_run X g []).
Qed.

End Claims.

(** ** Symbol ratios *)

Lemma symbol_ratio_cell_empty `{U : CharClass} (value symbol : str) :
  char_count value = 0%nat → symbol_ratio_cell value symbol = Float (Fin 0).
Proof.
  intros Hlen. unfold symbol_ratio_cell.
  pose proof (symbol_count_le value symbol) as Hle.
  rewrite Hlen in *. by replace (symbol_in_string_count value symbol) with 0%nat by lia.
Qed.

Lemma symbol_ratio_cell_nonempty `{U : CharClass} (value symbol : str) :
  char_count value ≠ 0%nat →
  symbol_ratio_cell value symbol
  = Float (Fin (inject_Z (Z.of_nat (symbol_in_string_count value symbol))
                / inject_Z (Z.of_nat (char_count value)))).
Proof.
  intros Hlen. unfold symbol_ratio_cell, cell_truediv, float_truediv, to_float.
  destruct (char_count value) as [|n]; [done|].
  by rewrite Nat2Z.inj_succ, <- Zpos_P_of_succ_nat.
Qed.

Section SymbolClaims.
Context {L : Type} `{U : CharClass}.
Implicit Types (X : Series L str) (feature symbol : str) (g : Generator).

(** The count and ratio columns of a configured symbol in the table
    generated for one input column. *)
Lemma symbol_columns_run X feature symbol g :
  symbol ∈ _symbols g →
  ∃ out : DataFrame L cell,
    TextSpecialFeatureGenerator._generate_text_special X feature g
    = (g, Return out) ∧
    get_column (feature ++ lit ".char_count") (columns out)
    = Some (List.map (λ value, Int (Z.of_nat (char_count value))) (s_values X)) ∧
    get_column (feature ++ lit ".symbol_count." ++ symbol) (columns out)
    = Some (List.map (λ value, Int (Z.of_nat (symbol_in_string_count value symbol)))
              (s_values X)) ∧
    get_column (feature ++ lit ".symbol_ratio." ++ symbol) (columns out)
    = Some (List.map (λ value, symbol_ratio_cell value symbol) (s_values X)).
Proof.
  intros Hin. eexists. split; [apply generate_text_special_run|].
  apply elem_of_distinct_symbols in Hin. cbn [columns].
  unfold text_special_columns. split_and!.
  - apply get_char_count.
  - by rewrite get_app, get_fixed_count, get_symbol_count, bool_decide_eq_true_2.
  - by rewrite get_app, get_fixed_ratio, get_symbol_ratio, bool_decide_eq_true_2.
Qed.

(** C3: in the table generated for an input column, the ratio column of a
    configured symbol holds, for every row, the symbol count of the row's
    value divided by its character count, with the missing result of a
    division by zero replaced by 0: the cell is 0 when the character count
    is 0 and the quotient otherwise, and it is always finite. *)
Theorem C3_symbol_ratio X feature symbol g :
  symbol ∈ _symbols g →
  ∃ (out : DataFrame L cell) (counts chars ratios : list cell),
    TextSpecialFeatureGenerator._generate_text_special X feature g
    = (g, Return out) ∧
    get_column (feature ++ lit ".symbol_count." ++ symbol) (columns out)
    = Some counts ∧
    get_column (feature ++ lit ".char_count") (columns out) = Some chars ∧
    get_column (feature ++ lit ".symbol_ratio." ++ symbol) (columns out)
    = Some ratios ∧
    ratios = List.map (cell_fillna 0) (zip_with cell_truediv counts chars) ∧
    ∀ (i : nat) (value : str),
      s_values X !! i = Some value →
      ∃ c, ratios !! i = Some c ∧ is_finite c = true ∧
           (char_count value = 0%nat → cell_is c 0) ∧
           (char_count value ≠ 0%nat →
            cell_is c (inject_Z (Z.of_nat (symbol_in_string_count value symbol))
                       / inject_Z (Z.of_nat (char_count value)))).
Proof.
  intros Hin.
  destruct (symbol_columns_run X feature symbol g Hin)
    as (out & Hrun & Hchars & Hcounts & Hratios).
  do 4 eexists. split_and!; [done..| |].
  - by rewrite zip_with_map_same, List.map_map.
  - intros i value Hi. exists (symbol_ratio_cell value symbol).
    split; [by rewrite list_lookup_fmap, Hi|].
    destruct (decide (char_count value = 0%nat)) as [Hz|Hnz].
    + rewrite symbol_ratio_cell_empty by done. by split_and!.
    + rewrite symbol_ratio_cell_nonempty by done. by split_and!.
Qed.

(** C10: a configured symbol that is not exactly one character long is
    never counted: its count is 0 for every value, so in the generated
    table its count column is all 0 and its ratio column is all 0; a
    symbol with a non-zero count for some value has exactly one
    character. *)
Theorem C10_long_symbols X feature symbol g :
  symbol ∈ _symbols g → length symbol ≠ 1%nat →
  (∀ value, symbol_in_string_count value symbol = 0%nat) ∧
  ∃ (out : DataFrame L cell) (ratios : list cell),
    TextSpecialFeatureGenerator._generate_text_special X feature g
    = (g, Return out) ∧
    get_column (feature ++ lit ".symbol_count." ++ symbol) (columns out)
    = Some (List.map (λ _, Int 0) (s_values X)) ∧
    get_column (feature ++ lit ".symbol_ratio." ++ symbol) (columns out)
    = Some ratios ∧
    length ratios = length (s_values X) ∧
    Forall (λ c, cell_is c 0) ratios.
Proof.
  intros Hin Hlen.
  assert (∀ value, symbol_in_string_count value symbol = 0%nat) as Hzero
    by (intros value; by apply symbol_count_not_single).
  split; [done|].
  destruct (symbol_columns_run X feature symbol g Hin)
    as (out & Hrun & _ & Hcounts & Hratios).
  do 2 eexists. split_and!; [done| |done| |].
  - rewrite Hcounts. f_equal. apply List.map_ext. intros value.
    by rewrite Hzero.
  - by rewrite length_map.
  - apply Forall_forall. intros c (value & -> & _)%list_elem_of_fmap.
    destruct (decide (char_count value = 0%nat)) as [Hz|Hnz].
    + by rewrite symbol_ratio_cell_empty.
    + rewrite symbol_ratio_cell_nonempty, Hzero by done. simpl.
      unfold Qeq. simpl. lia.
Qed.

End SymbolClaims.

(** ** Fit and transform *)

Section Lifecycle.
Context {L : Type} `{U : CharClass}.
Variable S_TEXT_SPECIAL : str.
Variable get_type_family_groups_df : DataFrame L cell → gmap str (list str).
Implicit Types (X : DataFrame L str) (g : Generator).


(** C6: [transform] on a fitted generator leaves the generator as it is,
    so a second call on the same table returns what the first returned,
    and its result is determined by the table, [features_in] and the
    symbols. *)
Theorem C6_transform_pure X g1 g2 :
  _is_fit g1 = true → _is_fit g2 = true →
  class_of g1 = class_of g2 →
  features_in g1 = features_in g2 → _symbols g1 = _symbols g2 →
  (transform X g1).1 = g1 ∧
  transform X (transform X g1).1 = transform X g1 ∧
  (transform X g1).2 = (transform X g2).2.
Proof.
  intros Hfit1 Hfit2 Hcls Hfeat Hsym. split_and!.
  - apply transform_state.
  - by rewrite transform_state.
  - rewrite !transform_fit by done. unfold mbind, M_bind. rewrite <- Hfeat.
    pose proof (getitem_list_state X (features_in g1) g1) as [Hst1 _].
    pose proof (getitem_list_state X (features_in g1) g2) as [Hst2 _].
    assert ((getitem_list X (features_in g1) g1).2
            = (getitem_list X (features_in g1) g2).2) as Hsame.
    { unfold getitem_list. destruct (features_in g1); [|done].
      by destruct (select_columns _ _). }
    destruct (getitem_list X (features_in g1) g1) as [g1' [X1|e1]],
             (getitem_list X (features_in g1) g2) as [g2' [X2|e2]];
      simpl in *; subst; try done; injection Hsame as ->; [|done].
    rewrite !dispatch_transform, <- Hcls.
    destruct (class_of g1); [done|].
    apply tame_transform. unfold config. by rewrite Hfeat, Hsym.
Qed.

(** C7: the fit-and-transform step of the text generator returns the very
    table its transform step returns on the same input (and fails when
    that step fails), together with a mapping whose single key is
    [S_TEXT_SPECIAL] and whose value is the list of all columns of that
    table. *)
Theorem C7_fit_transform_step X g :
  class_of g = TextSpecial →
  match _transform X g with
  | (g', Return X_out) =>
      ∃ groups : gmap str (list str),
        _fit_transform S_TEXT_SPECIAL X g = (g', Return (X_out, groups)) ∧
        groups !! S_TEXT_SPECIAL = Some (names X_out) ∧
        dom groups = {[ S_TEXT_SPECIAL ]}
  | (g', Raise e) => _fit_transform S_TEXT_SPECIAL X g = (g', Raise e)
  end.
Proof.
  intros Hcls. rewrite dispatch_transform, dispatch_fit_transform, Hcls.
  unfold TextSpecialFeatureGenerator._fit_transform, mbind, M_bind.
  destruct (TextSpecialFeatureGenerator._transform X g) as [g' [X_out|e]];
    [|done].
  eexists. split_and!; [done| |].
  - apply lookup_singleton_eq.
  - apply dom_singleton_L.
Qed.

End Lifecycle.

(** ** The generated table, cell by cell *)

Lemma column_is_map {A : Type} (f : A → cell) (q : A → Q) (l : list A) :
  (∀ x, cell_is (f x) (q x)) →
  column_is (List.map f l) (List.map q l).
Proof.
  intros Hcell. induction l as [|x l IH]; simpl; constructor; [apply Hcell|done].
Qed.

Lemma numeric_column_is (cells : list cell) (numbers : list Q) :
  column_is cells numbers → column_is (numeric_column cells) numbers.
Proof.
  unfold numeric_column. destruct (forallb _ _); [done|].
  induction 1 as [|c q cells numbers Hc _ IH]; simpl; constructor; [|done].
  by destruct c.
Qed.

Section CellFacts.
Context {L : Type} `{U : CharClass}.
Implicit Types (X : DataFrame L str) (g : Generator).

Lemma of_ratio_is (ratio : str → Q) (value : str) :
  (replace_space value = [] → ratio value = 0%Q) →
  cell_is (TextSpecialFeatureGenerator.of_ratio ratio value) (ratio value).
Proof.
  intros Hblank. unfold TextSpecialFeatureGenerator.of_ratio.
  destruct (replace_space value); simpl; [by rewrite Hblank|done].
Qed.

Lemma ratio_column_is (ratio : str → Q) (values : list str) :
  (∀ value, replace_space value = [] → ratio value = 0%Q) →
  column_is
    (numeric_column (List.map (TextSpecialFeatureGenerator.of_ratio ratio) values))
    (List.map ratio values).
Proof.
  intros Hblank. apply numeric_column_is, column_is_map.
  intros value. by apply of_ratio_is, Hblank.
Qed.

Lemma symbol_ratio_cell_is (value symbol : str) :
  cell_is (symbol_ratio_cell value symbol) (symbol_ratio value symbol).
Proof.
  unfold symbol_ratio. destruct (decide _) as [Hz|Hnz].
  - by rewrite symbol_ratio_cell_empty.
  - by rewrite symbol_ratio_cell_nonempty.
Qed.

Lemma text_special_table (values : list str) (feature : str)
    (symbols : list str) :
  same_table (text_special_columns values feature symbols)
    (List.map (λ statistic : str * (str → Q),
                 (feature ++ lit "." ++ statistic.1,
                  List.map statistic.2 values))
       (statistic_functions symbols)).
Proof.
  unfold same_table, text_special_columns, statistic_functions.
  rewrite List.map_app. apply Forall2_app.
  - unfold fixed_columns. cbn [List.map fst snd].
    repeat (constructor; [split; [reflexivity|]|]); try constructor.
    + by apply column_is_map.
    + by apply column_is_map.
    + apply ratio_column_is. intros value Hb. unfold capital_ratio. by rewrite Hb.
    + apply ratio_column_is. intros value Hb. unfold lower_ratio. by rewrite Hb.
    + apply ratio_column_is. intros value Hb. unfold digit_ratio. by rewrite Hb.
    + apply ratio_column_is. intros value Hb. unfold special_ratio. by rewrite Hb.
  - induction symbols as [|s symbols IH]; [constructor|].
    cbn [flat_map]. rewrite List.map_app. apply Forall2_app; [|done].
    unfold symbol_columns. cbn [List.map fst snd].
    repeat (constructor; [split; [reflexivity|]|]); try constructor.
    + by apply column_is_map.
    + apply column_is_map. intros value. apply symbol_ratio_cell_is.
Qed.

Lemma expected_same_table X (features symbols : list str) :
  same_table (expected_columns X features symbols)
    (expected_table X features symbols).
Proof.
  unfold same_table, expected_columns, expected_table.
  induction features as [|f features IH]; [constructor|].
  cbn [flat_map]. apply Forall2_app; [|done]. apply text_special_table.
Qed.

(** C1, as amended: for a fitted text generator with N pairwise distinct
    input columns and D distinct configured symbols, and a table with
    pairwise distinct column labels and one value per row in each column
    that has those input columns, the transform step returns a table whose
    columns are named ['<column>.<statistic>'], input-column-major then
    statistic-minor (the six fixed statistics, then the count and the
    ratio of each distinct symbol in the order of first occurrence); there
    are N*(6+2D) of them, which is N*(6+2S) when the S configured symbols
    are pairwise distinct; the row index is the input's, every column has
    one cell per input row, and the cell of a row is the statistic of the
    value the input column has in that row. *)
Theorem C1_transform_columns X g (features : list str) :
  class_of g = TextSpecial → _is_fit g = true →
  features_in g = Some features → NoDup features →
  wf_frame X → Forall (λ name, name ∈ names X) features →
  ∃ out : DataFrame L cell,
    transform X g = (g, Return out) ∧
    _transform X g = (g, Return out) ∧
    names out = expected_names features (distinct_symbols (_symbols g)) ∧
    length (names out)
    = (length features * (6 + 2 * length (distinct_symbols (_symbols g))))%nat ∧
    (NoDup (_symbols g) →
     length (names out)
     = (length features * (6 + 2 * length (_symbols g)))%nat) ∧
    index out = index X ∧
    Forall (λ col, length col.2 = length (index X)) (columns out) ∧
    same_table (columns out)
      (expected_table X features (distinct_symbols (_symbols g))).
Proof.
  intros Hcls Hfit Hfeat _ Hwf Hin.
  exists (mkFrame (index X)
            (expected_columns X features (distinct_symbols (_symbols g)))).
  assert (names (mkFrame (index X)
            (expected_columns X features (distinct_symbols (_symbols g))))
          = expected_names features (distinct_symbols (_symbols g))) as Hnames
    by apply expected_columns_names.
  split_and!.
  - by apply transform_run.
  - rewrite dispatch_transform, Hcls. by apply generate_features_run.
  - done.
  - rewrite Hnames. apply expected_names_length.
  - intros Hnd. rewrite Hnames, expected_names_length.
    by rewrite distinct_symbols_NoDup.
  - done.
  - by apply expected_columns_lengths.
  - apply expected_same_table.
Qed.

End CellFacts.

(** ** The claims on the sample data *)

Lemma latin_cjk_case_disjoint : @case_disjoint latin_cjk.
Proof.
  intros c. unfold isupper, islower, latin_cjk, between.
  intros [_ Hhi%N.leb_le]%andb_true_iff.
  apply andb_false_iff. left. apply N.leb_gt. lia.
Qed.

Lemma sample_table_wf : wf_frame sample_table.
Proof.
  split.
  - apply NoDup_singleton.
  - by repeat constructor.
Qed.

Lemma C1_witness :
  ∃ out : DataFrame nat cell,
    @transform nat latin_cjk sample_table sample_fit = (sample_fit, Return out) ∧
    length (names out) = 10%nat ∧
    index out = [0; 1; 2]%nat.
Proof.
  destruct (@C1_transform_columns nat latin_cjk sample_table sample_fit
              [lit "text"])
    as (out & Hrun & _ & _ & _ & Hlen & Hidx & _).
  - reflexivity.
  - reflexivity.
  - reflexivity.
  - apply NoDup_singleton.
  - exact sample_table_wf.
  - repeat constructor.
  - exists out. split; [exact Hrun|]. split; [|exact Hidx].
    rewrite Hlen; [reflexivity|].
    apply NoDup_cons. split; [|apply NoDup_singleton].
    intros Hin%list_elem_of_singleton. discriminate Hin.
Defined.

(** With the symbol ['!'] configured twice, one input column yields 8
    columns, not 1*(6+2*2) = 10. *)
Lemma C1_counterexample :
  ∃ out : DataFrame nat cell,
    @transform nat latin_cjk sample_table sample_repeated
    = (sample_repeated, Return out) ∧
    features_in sample_repeated = Some [lit "text"] ∧
    length (_symbols sample_repeated) = 2%nat ∧
    length (names out) = 8%nat ∧
    length (names out) ≠ (1 * (6 + 2 * 2))%nat.
Proof.
  eexists. split; [vm_compute; reflexivity|]. by split_and!.
Qed.



Lemma C3_witness :
  ∃ (out : DataFrame nat cell) (ratios : list cell),
    @TextSpecialFeatureGenerator._generate_text_special nat latin_cjk
      sample_series (lit "text") sample_fit = (sample_fit, Return out) ∧
    get_column (lit "text.symbol_ratio.!") (columns out) = Some ratios ∧
    ∃ c0 c1, ratios !! 0%nat = Some c0 ∧ cell_is c0 (1 # 12) ∧
             ratios !! 1%nat = Some c1 ∧ cell_is c1 0 ∧ is_finite c1 = true.
Proof.
  destruct (@C3_symbol_ratio nat latin_cjk sample_series (lit "text") (lit "!")
              sample_fit)
    as (out & counts & chars & ratios & Hrun & _ & _ & Hratios & _ & Hrows).
  - by left.
  - exists out, ratios. split; [exact Hrun|]. split; [exact Hratios|].
    destruct (Hrows 0%nat (lit "Hello World!") eq_refl)
      as (c0 & Hc0 & _ & _ & Hq0).
    destruct (Hrows 1%nat (lit "") eq_refl) as (c1 & Hc1 & Hfin & Hq1 & _).
    exists c0, c1. split; [exact Hc0|]. split.
    + assert (@char_count (lit "Hello World!") ≠ 0%nat) as Hne by discriminate.
      specialize (Hq0 Hne). destruct c0 as [n|[q| |]]; try done;
        simpl in *; by rewrite Hq0.
    + split; [exact Hc1|]. split; [exact (Hq1 eq_refl)|exact Hfin].
Defined.

Lemma C4_witness :
  @capital_ratio latin_cjk (lit "   ") = 0%Q ∧
  @lower_ratio latin_cjk (lit "   ") = 0%Q ∧
  @digit_ratio latin_cjk (lit "   ") = 0%Q ∧
  @special_ratio latin_cjk (lit "   ") = 0%Q.
Proof. apply (@C4_ratios_of_blank latin_cjk (lit "   ")). reflexivity. Defined.

Lemma C5_witness :
  (@capital_ratio latin_cjk (lit "Hello World!")
   + @lower_ratio latin_cjk (lit "Hello World!") <= 1)%Q ∧
  (@capital_ratio latin_cjk (lit "Ab c") + @lower_ratio latin_cjk (lit "Ab c")
   == 1)%Q.
Proof.
  split.
  - apply (@C5_capital_plus_lower latin_cjk (lit "Hello World!")
             latin_cjk_case_disjoint).
  - apply (@C5_capital_plus_lower latin_cjk (lit "Ab c")
             latin_cjk_case_disjoint).
    + discriminate.
    + by repeat constructor.
Defined.

(** The letter U+4E2D is alphabetic and has no case: its capital and lower
    ratios are both 0. *)
Lemma C5_counterexample :
  @str_isalpha latin_cjk (replace_space sample_ideograph) = true ∧
  ¬ (@capital_ratio latin_cjk sample_ideograph
     + @lower_ratio latin_cjk sample_ideograph == 1)%Q.
Proof. split; [reflexivity|]. by vm_compute. Qed.

Lemma C6_witness :
  (@transform nat latin_cjk sample_table sample_fit).1 = sample_fit ∧
  @transform nat latin_cjk sample_table
    (@transform nat latin_cjk sample_table sample_fit).1
  = @transform nat latin_cjk sample_table sample_fit ∧
  (@transform nat latin_cjk sample_table sample_fit).2
  = (@transform nat latin_cjk sample_table sample_fit').2.
Proof.
  apply (@C6_transform_pure nat latin_cjk sample_table sample_fit sample_fit');
    reflexivity.
Defined.

Lemma C7_witness :
  ∃ g' (X_out : DataFrame nat cell) (groups : gmap str (list str)),
    @_transform nat latin_cjk sample_table sample_fit = (g', Return X_out) ∧
    @_fit_transform nat latin_cjk (lit "text_special") sample_table sample_fit
    = (g', Return (X_out, groups)) ∧
    groups !! lit "text_special" = Some (names X_out) ∧
    dom groups = {[ lit "text_special" ]}.
Proof.
  pose proof (@C7_fit_transform_step nat latin_cjk (lit "text_special")
                sample_table sample_fit eq_refl) as Hstep.
  destruct (@_transform nat latin_cjk sample_table sample_fit)
    as [g' [X_out|e]] eqn:Hrun.
  - destruct Hstep as (groups & Hfit & Hkey & Hdom).
    exists g', X_out, groups. split; [reflexivity|].
    split; [exact Hfit|]. split; [exact Hkey|exact Hdom].
  - vm_compute in Hrun. discriminate Hrun.
Defined.

Lemma C8_witness :
  @transform nat latin_cjk sample_table sample_empty
  = (sample_empty, Return (mkFrame [0; 1; 2]%nat [])).
Proof.
  apply (@C8_no_input_columns nat latin_cjk sample_table sample_empty);
    reflexivity.
Defined.

Lemma C9_witness :
  char_count (lit "Hello World!") = 12%nat ∧
  @word_count latin_cjk (lit "Hello World!") = 2%nat.
Proof.
  apply (@C9_char_and_word_count latin_cjk (lit "Hello World!")
           [lit "Hello"; lit "World!"]).
  apply (@tokens_word latin_cjk [] (lit "Hello") (lit " World!") [lit "World!"]).
  - constructor.
  - discriminate.
  - repeat constructor.
  - right. exists 32, (lit "World!"). split; reflexivity.
  - apply (@tokens_word latin_cjk [32] (lit "World!") [] []).
    + repeat constructor.
    + discriminate.
    + repeat constructor.
    + left. reflexivity.
    + apply tokens_blank. constructor.
Defined.

Lemma C10_witness :
  symbol_in_string_count (lit "a!!b") (lit "!!") = 0%nat ∧
  ∃ (out : DataFrame nat cell) (ratios : list cell),
    @TextSpecialFeatureGenerator._generate_text_special nat latin_cjk
      sample_series (lit "text") sample_long = (sample_long, Return out) ∧
    get_column (lit "text.symbol_count.!!") (columns out)
    = Some [Int 0; Int 0; Int 0] ∧
    get_column (lit "text.symbol_ratio.!!") (columns out) = Some ratios ∧
    Forall (λ c, cell_is c 0) ratios.
Proof.
  destruct (@C10_long_symbols nat latin_cjk sample_series (lit "text")
              (lit "!!") sample_long)
    as (Hzero & out & ratios & Hrun & Hcounts & Hratios & _ & Hall).
  - left.
  - discriminate.
  - split; [apply Hzero|]. exists out, ratios.
    split; [exact Hrun|]. split; [exact Hcounts|].
    split; [exact Hratios|exact Hall].
Defined.

(** * Further properties of the statistics *)

Section RatioFacts.
Context `{U : CharClass}.

Lemma py_sum_ones {A : Type} (l : list A) :
  py_sum (List.map (λ _, 1%nat) l) = length l.
Proof. induction l as [|x l IH]; simpl; [done|]. by rewrite IH. Qed.

Lemma py_sum_bools {A : Type} (p : A → bool) (l : list A) :
  py_sum (List.map (λ c, int_of_bool (p c)) l) = length (List.filter p l).
Proof.
  induction l as [|x l IH]; simpl; [done|].
  rewrite IH. by destruct (p x).
Qed.

Lemma filter_none {A : Type} (p : A → bool) (l : list A) :
  length (List.filter p l) = 0%nat ↔ Forall (λ c, p c = false) l.
Proof.
  induction l as [|x l IH]; simpl.
  - split; [constructor|done].
  - destruct (p x) eqn:Hp; simpl.
    + split; [done|]. inversion 1; congruence.
    + rewrite IH. split; [by constructor|by inversion 1].
Qed.

Lemma truediv_nonneg (k n : nat) : (0 <= truediv k n)%Q.
Proof. unfold truediv, Qle. simpl. lia. Qed.

Lemma truediv_zero (k n : nat) : (truediv k n == 0)%Q ↔ k = 0%nat.
Proof. unfold truediv, Qeq. simpl. lia. Qed.

Lemma replace_space_insert (a b : str) :
  replace_space (a ++ SPACE :: b) = replace_space (a ++ b).
Proof. unfold replace_space. by rewrite !List.filter_app. Qed.

(** X1: each of the four ratios of a value lies between 0 and 1. *)
Theorem X1_ratios_in_unit_interval (value : str) :
  (0 <= capital_ratio value <= 1)%Q ∧ (0 <= lower_ratio value <= 1)%Q ∧
  (0 <= digit_ratio value <= 1)%Q ∧ (0 <= special_ratio value <= 1)%Q.
Proof.
  unfold capital_ratio, lower_ratio, digit_ratio, special_ratio, re_sub_word.
  destruct (replace_space value) as [|c string]; [done|].
  set (s := c :: string).
  assert (0 < length s)%nat as Hlen by (simpl; lia).
  rewrite py_sum_ones, !py_sum_bools.
  split_and!; try apply truediv_nonneg;
    (apply truediv_le_1; [done|apply List.filter_length_le]).
Qed.

(** X2: the four ratios do not see spaces: a space inserted anywhere into a
    value changes none of them. *)
Theorem X2_ratios_ignore_spaces (a b : str) :
  capital_ratio (a ++ SPACE :: b) = capital_ratio (a ++ b) ∧
  lower_ratio (a ++ SPACE :: b) = lower_ratio (a ++ b) ∧
  digit_ratio (a ++ SPACE :: b) = digit_ratio (a ++ b) ∧
  special_ratio (a ++ SPACE :: b) = special_ratio (a ++ b).
Proof.
  unfold capital_ratio, lower_ratio, digit_ratio, special_ratio.
  by rewrite replace_space_insert.
Qed.

(** X3: a ratio is 0 exactly when no character of the space-stripped value
    is of its kind: no upper-case character for the capital ratio, no
    lower-case character for the lower ratio, no digit for the digit ratio,
    and only word characters for the special ratio. *)
Theorem X3_ratio_zero (value : str) :
  ((capital_ratio value == 0)%Q ↔
   Forall (λ c, isupper c = false) (replace_space value)) ∧
  ((lower_ratio value == 0)%Q ↔
   Forall (λ c, islower c = false) (replace_space value)) ∧
  ((digit_ratio value == 0)%Q ↔
   Forall (λ c, isdigit c = false) (replace_space value)) ∧
  ((special_ratio value == 0)%Q ↔
   Forall (λ c, isword c = true) (replace_space value)).
Proof.
  unfold capital_ratio, lower_ratio, digit_ratio, special_ratio, re_sub_word.
  destruct (replace_space value) as [|c string].
  - by split_and!; split; try constructor.
  - set (s := c :: string).
    rewrite py_sum_ones, !py_sum_bools, !truediv_zero, !filter_none.
    split_and!; try done. apply Forall_iff. intros x. by destruct (isword x).
Qed.

(** X4: digits being word characters, the digit ratio and the special
    ratio of a value sum to at most 1. *)
Theorem X4_digit_plus_special (value : str) :
  digit_is_word →
  (digit_ratio value + special_ratio value <= 1)%Q.
Proof.
  intros Hword. unfold digit_ratio, special_ratio, re_sub_word.
  destruct (replace_space value) as [|c string]; [done|].
  set (s := c :: string).
  assert (0 < length s)%nat as Hlen by (simpl; lia).
  rewrite py_sum_bools, truediv_plus. apply truediv_le_1; [done|].
  clear Hlen. induction s as [|x s IH]; simpl; [lia|].
  destruct (isdigit x) eqn:Hd; simpl.
  - rewrite (Hword x Hd). simpl. lia.
  - destruct (isword x); simpl; lia.
Qed.

End RatioFacts.

(** * Further properties of words and symbols *)

Section WordFacts.
Context `{U : CharClass}.

Lemma filter_spaces (ws : str) :
  Forall (λ c, isspace c = true) ws →
  List.filter (λ c, negb (isspace c)) ws = [].
Proof. induction 1 as [|c ws Hc _ IH]; simpl; [done|]. by rewrite Hc. Qed.

Lemma filter_word (w : str) :
  Forall (λ c, isspace c = false) w →
  List.filter (λ c, negb (isspace c)) w = w.
Proof.
  induction 1 as [|c w Hc _ IH]; simpl; [done|]. by rewrite Hc, IH.
Qed.

Lemma filter_spaces_nil (value : str) :
  List.filter (λ c, negb (isspace c)) value = [] ↔
  Forall (λ c, isspace c = true) value.
Proof.
  induction value as [|c value IH]; simpl.
  - split; [constructor|done].
  - destruct (isspace c) eqn:Hc; simpl.
    + rewrite IH. split; [by constructor|by inversion 1].
    + split; [done|]. inversion 1; congruence.
Qed.

Lemma tokens_of_shape (value : str) (toks : list str) :
  tokens_of value toks →
  Forall (λ w, w ≠ [] ∧ Forall (λ c, isspace c = false) w) toks ∧
  concat toks = List.filter (λ c, negb (isspace c)) value.
Proof.
  induction 1 as [ws Hws|ws w rest toks Hws Hne Hw _ _ [IH1 IH2]].
  - split; [constructor|]. by rewrite filter_spaces.
  - split; [by constructor|].
    rewrite !List.filter_app, filter_spaces, filter_word by done.
    simpl. by rewrite IH2.
Qed.

Lemma tokens_of_nil (toks : list str) : tokens_of [] toks → toks = [].
Proof.
  intros Htok. remember [] as value eqn:Hnil.
  destruct Htok as [|ws w rest toks' _ Hne _ _ _]; [done|].
  by destruct ws, w.
Qed.

Lemma tokens_of_count (value : str) (toks : list str) :
  tokens_of value toks →
  (2 * length toks ≤ length value + 1)%nat ∧
  (∀ c r, value = c :: r → isspace c = true →
          (2 * length toks ≤ length value)%nat).
Proof.
  induction 1 as [ws Hws|ws w rest toks Hws Hne Hw Hrest Htok [IH1 IH2]].
  - simpl. split; [lia|]. intros; lia.
  - assert (1 ≤ length w)%nat as Hlen by (destruct w; [done|simpl; lia]).
    assert (2 * length toks ≤ length rest)%nat as Hrest'.
    { destruct Hrest as [->|(c & r & -> & Hc)].
      - apply tokens_of_nil in Htok as ->. simpl. lia.
      - by apply (IH2 c r). }
    rewrite !length_app. simpl. split; [lia|].
    intros c r Heq Hc. destruct ws as [|c' ws]; [|simpl; lia].
    destruct Hw as [|c' w Hc' _]; [done|]. simpl in Heq.
    injection Heq as -> _. congruence.
Qed.

Lemma split_scan_app (word : option str) (a b : str) (c : char) :
  isspace c = true →
  split_scan word (a ++ c :: b) = split_scan word a ++ split_scan None b.
Proof.
  intros Hc. revert word. induction a as [|x a IH]; intros word; simpl.
  - rewrite Hc. by destruct word.
  - destruct (isspace x); [|apply IH].
    destruct word; simpl; by rewrite IH.
Qed.

(** X5: the tokens [split] returns are non-empty and free of whitespace,
    and put end to end they are the value without its whitespace. *)
Theorem X5_split_tokens (value : str) :
  Forall (λ w, w ≠ [] ∧ Forall (λ c, isspace c = false) w) (split value) ∧
  concat (split value) = List.filter (λ c, negb (isspace c)) value.
Proof. apply tokens_of_shape, split_tokens. Qed.

(** X6: a value of n characters has at most (n+1)/2 words, and it has no
    word exactly when all its characters are whitespace (in particular
    when it is empty). *)
Theorem X6_word_count_bounds (value : str) :
  (2 * word_count value ≤ char_count value + 1)%nat ∧
  (word_count value = 0%nat ↔ Forall (λ c, isspace c = true) value).
Proof.
  unfold word_count, char_count. split.
  - apply (tokens_of_count value (split value)), split_tokens.
  - destruct (tokens_of_shape value (split value) (split_tokens value))
      as [Hne Hcat].
    rewrite <- filter_spaces_nil, <- Hcat. split.
    + intros Hlen. by destruct (split value).
    + destruct Hne as [|w toks [Hw _] _]; [done|]. by destruct w.
Qed.

(** X7: the words of two values joined by a whitespace character are the
    words of the first followed by the words of the second, so the word
    counts add up. *)
Theorem X7_word_count_join (a b : str) (c : char) :
  isspace c = true →
  split (a ++ c :: b) = split a ++ split b ∧
  word_count (a ++ c :: b) = (word_count a + word_count b)%nat.
Proof.
  intros Hc. unfold word_count, split.
  rewrite split_scan_app by done. split; [done|]. by rewrite length_app.
Qed.

End WordFacts.

Lemma symbol_count_cons (c : char) (value symbol : str) :
  symbol_in_string_count (c :: value) symbol
  = (int_of_bool (bool_decide ([c] = symbol))
     + symbol_in_string_count value symbol)%nat.
Proof.
  rewrite !symbol_count_filter. simpl. by destruct (bool_decide _).
Qed.

(** X8: symbol counts add up over concatenation. *)
Theorem X8_symbol_count_app (a b symbol : str) :
  symbol_in_string_count (a ++ b) symbol
  = (symbol_in_string_count a symbol + symbol_in_string_count b symbol)%nat.
Proof.
  rewrite !symbol_count_filter. by rewrite List.filter_app, length_app.
Qed.

(** X9: the count of the symbol [' '] and the length of the space-stripped
    value add up to the character count. *)
Theorem X9_space_count (value : str) :
  (symbol_in_string_count value (lit " ") + length (replace_space value))%nat
  = char_count value.
Proof.
  unfold char_count, replace_space.
  induction value as [|c value IH]; [done|].
  rewrite symbol_count_cons. cbn [List.filter length].
  change (lit " ") with [SPACE] in *.
  destruct (N.eqb_spec c SPACE) as [->|Hne].
  - rewrite bool_decide_eq_true_2 by done. simpl. lia.
  - rewrite bool_decide_eq_false_2 by congruence. simpl. lia.
Qed.

Lemma matches_at_most_one (c : char) (symbols : list str) :
  NoDup symbols →
  (py_sum (List.map (λ symbol, int_of_bool (bool_decide ([c] = symbol)))
             symbols) ≤ 1)%nat.
Proof.
  induction 1 as [|s symbols Hnotin _ IH]; simpl; [lia|].
  destruct (decide ([c] = s)) as [<-|Hne].
  - rewrite bool_decide_eq_true_2 by done. simpl.
    assert (py_sum (List.map (λ symbol, int_of_bool (bool_decide ([c] = symbol)))
                      symbols) = 0%nat) as ->; [|lia].
    clear IH. induction symbols as [|s symbols IH]; simpl; [done|].
    rewrite bool_decide_eq_false_2 by (intros <-; apply Hnotin; by left).
    simpl. apply IH. intros Hin. apply Hnotin. by right.
  - rewrite bool_decide_eq_false_2 by done. simpl. lia.
Qed.

Lemma py_sum_plus {A : Type} (f h : A → nat) (l : list A) :
  py_sum (List.map (λ x, (f x + h x)%nat) l)
  = (py_sum (List.map f l) + py_sum (List.map h l))%nat.
Proof. induction l as [|x l IH]; simpl; [done|]. rewrite IH. lia. Qed.

(** X10: for pairwise distinct symbols, the symbol counts of a value sum
    to at most its character count. *)
Theorem X10_symbol_counts_sum (value : str) (symbols : list str) :
  NoDup symbols →
  (py_sum (List.map (symbol_in_string_count value) symbols)
   ≤ char_count value)%nat.
Proof.
  intros Hnd. unfold char_count.
  induction value as [|c value IH]; simpl.
  - induction symbols as [|s symbols IHs]; simpl; [done|].
    apply NoDup_cons in Hnd as [_ Hnd]. by apply IHs.
  - rewrite (List.map_ext _ _ (symbol_count_cons c value)), py_sum_plus.
    pose proof (matches_at_most_one c symbols Hnd). lia.
Qed.

(** * Further properties of the generated table *)

Lemma get_column_None {A : Type} (name : str) (cols : list (str * list A)) :
  name ∉ cols.*1 → get_column name cols = None.
Proof.
  induction cols as [|[n x] cols IH]; simpl; [done|].
  intros Hnotin. rewrite decide_False by (intros ->; apply Hnotin; by left).
  apply IH. intros Hin. apply Hnotin. by right.
Qed.

Lemma get_column_names {A : Type} (name : str) (v : list A)
    (cols : list (str * list A)) :
  get_column name cols = Some v → name ∈ cols.*1.
Proof.
  intros Hget. destruct (decide (name ∈ cols.*1)) as [|Hnotin]; [done|].
  by rewrite get_column_None in Hget.
Qed.

Lemma select_columns_None {A : Type} (cols : list (str * list A))
    (l : list str) :
  ¬ Forall (λ name, name ∈ cols.*1) l → select_columns cols l = None.
Proof.
  induction l as [|n l IH]; simpl; [by intros []|].
  intros Hnot. destruct (get_column n cols) as [v|] eqn:Hget; [|done].
  rewrite IH; [done|]. intros Hall. apply Hnot. constructor; [|done].
  by apply get_column_names in Hget.
Qed.

Lemma Q_quotient_unit (a b : nat) :
  (a ≤ b)%nat → (0 < b)%nat →
  (0 <= inject_Z (Z.of_nat a) / inject_Z (Z.of_nat b) <= 1)%Q.
Proof.
  intros Hle Hpos. destruct b as [|b]; [lia|].
  assert (Z.of_nat (S b) = Z.pos (Pos.of_succ_nat b)) as Hb
    by (by rewrite Zpos_P_of_succ_nat, Nat2Z.inj_succ).
  assert (Z.of_nat a <= Z.pos (Pos.of_succ_nat b))%Z as Ha by lia.
  rewrite Hb. revert Ha. generalize (Pos.of_succ_nat b). intros p Ha.
  unfold Qdiv, Qmult, Qinv, Qle, inject_Z. simpl. lia.
Qed.

Section TableFacts.
Context {L : Type} `{U : CharClass}.
Variable S_TEXT_SPECIAL : str.
Implicit Types (X : DataFrame L str) (g : Generator).

Lemma symbol_ratio_cell_unit (value symbol : str) :
  ∃ q, symbol_ratio_cell value symbol = Float (Fin q) ∧ (0 <= q <= 1)%Q.
Proof.
  destruct (decide (char_count value = 0%nat)) as [Hz|Hnz].
  - exists 0%Q. by rewrite symbol_ratio_cell_empty.
  - eexists. split; [by apply symbol_ratio_cell_nonempty|].
    apply Q_quotient_unit; [apply symbol_count_le|lia].
Qed.

(** X11: in the table generated for an input column, every cell of the
    ratio column of a configured symbol is a finite number between 0 and
    1. *)
Theorem X11_symbol_ratio_range (X : Series L str) (feature symbol : str) g :
  symbol ∈ _symbols g →
  ∃ (out : DataFrame L cell) (ratios : list cell),
    TextSpecialFeatureGenerator._generate_text_special X feature g
    = (g, Return out) ∧
    get_column (feature ++ lit ".symbol_ratio." ++ symbol) (columns out)
    = Some ratios ∧
    Forall (λ c, ∃ q, c = Float (Fin q) ∧ (0 <= q <= 1)%Q) ratios.
Proof.
  intros Hin.
  destruct (symbol_columns_run X feature symbol g Hin)
    as (out & Hrun & _ & _ & Hratios).
  exists out. eexists. split_and!; [done..|].
  apply Forall_forall. intros c (value & -> & _)%list_elem_of_fmap.
  apply symbol_ratio_cell_unit.
Qed.

(** X12: the table generated for one input column never fails to build and
    leaves the generator as it is; it has the index of the column, and
    its six fixed columns hold, row by row, the numbers that are the
    character count, the word count and the four ratios of the column's
    values, whatever the symbols are. *)
Theorem X12_fixed_columns (X : Series L str) (feature : str) g :
  ∃ (out : DataFrame L cell)
    (chars words capitals lowers digits specials : list cell),
    TextSpecialFeatureGenerator._generate_text_special X feature g
    = (g, Return out) ∧
    index out = s_index X ∧
    get_column (feature ++ lit ".char_count") (columns out) = Some chars ∧
    column_is chars
      (List.map (λ value, inject_Z (Z.of_nat (char_count value))) (s_values X)) ∧
    get_column (feature ++ lit ".word_count") (columns out) = Some words ∧
    column_is words
      (List.map (λ value, inject_Z (Z.of_nat (word_count value))) (s_values X)) ∧
    get_column (feature ++ lit ".capital_ratio") (columns out) = Some capitals ∧
    column_is capitals (List.map capital_ratio (s_values X)) ∧
    get_column (feature ++ lit ".lower_ratio") (columns out) = Some lowers ∧
    column_is lowers (List.map lower_ratio (s_values X)) ∧
    get_column (feature ++ lit ".digit_ratio") (columns out) = Some digits ∧
    column_is digits (List.map digit_ratio (s_values X)) ∧
    get_column (feature ++ lit ".special_ratio") (columns out) = Some specials ∧
    column_is specials (List.map special_ratio (s_values X)).
Proof.
  do 7 eexists. split; [apply generate_text_special_run|].
  cbn [index columns]. unfold text_special_columns, fixed_columns.
  split; [done|].
  split_and!;
    try (cbn [app get_column];
         repeat (rewrite decide_False by label_neq);
         by rewrite decide_True).
  - by apply column_is_map.
  - by apply column_is_map.
  - apply ratio_column_is. intros value Hb. unfold capital_ratio. by rewrite Hb.
  - apply ratio_column_is. intros value Hb. unfold lower_ratio. by rewrite Hb.
  - apply ratio_column_is. intros value Hb. unfold digit_ratio. by rewrite Hb.
  - apply ratio_column_is. intros value Hb. unfold special_ratio. by rewrite Hb.
Qed.

Lemma features_loop_missing X (features : list str)
    (acc : list (DataFrame L cell)) g :
  ¬ Forall (λ name, name ∈ names X) features →
  for_in features
    (λ nlp_feature X_text_special_combined,
       column ← getitem X nlp_feature;
       df_text_special ←
         TextSpecialFeatureGenerator._generate_text_special column nlp_feature;
       mret (X_text_special_combined ++ [df_text_special]))
    acc g
  = (g, Raise KeyError).
Proof.
  revert acc. induction features as [|f features IH]; intros acc Hnot.
  - by destruct Hnot.
  - cbn [for_in]. unfold mbind at 1, M_bind at 1. unfold mbind at 1, M_bind at 1.
    unfold getitem at 1.
    destruct (decide (f ∈ names X)) as [Hin|Hnotin].
    + destruct (get_column_Some f (columns X) Hin) as [v ->].
      unfold mret at 1, M_ret at 1. unfold mbind at 1, M_bind at 1.
      rewrite generate_text_special_run. unfold mret at 1, M_ret at 1.
      apply IH. intros Hall. apply Hnot. by constructor.
    + by rewrite get_column_None.
Qed.

(** The transform step of the text generator, case by case. *)
Lemma text_transform_cases X g :
  TextSpecialFeatureGenerator._transform X g =
  match features_in g with
  | Some ((_ :: _) as features) =>
      if decide (Forall (λ name, name ∈ names X) features)
      then (g, Return (mkFrame (index X)
              (expected_columns X features (distinct_symbols (_symbols g)))))
      else (g, Raise KeyError)
  | _ => (g, Return (mkFrame (index X) []))
  end.
Proof.
  destruct (features_in g) as [[|f features]|] eqn:Hfeat.
  - unfold TextSpecialFeatureGenerator._transform,
      TextSpecialFeatureGenerator._generate_features_text_special,
      mbind, M_bind, attr. by rewrite Hfeat.
  - destruct (decide _) as [Hall|Hnot].
    + unfold TextSpecialFeatureGenerator._transform.
      by apply generate_features_run.
    + unfold TextSpecialFeatureGenerator._transform,
        TextSpecialFeatureGenerator._generate_features_text_special.
      unfold mbind at 1, M_bind at 1, attr. rewrite Hfeat.
      unfold mbind at 1, M_bind at 1. by rewrite features_loop_missing.
  - unfold TextSpecialFeatureGenerator._transform,
      TextSpecialFeatureGenerator._generate_features_text_special,
      mbind, M_bind, attr. by rewrite Hfeat.
Qed.

(** X13: on a table with pairwise distinct column labels the two steps of
    the text generator never change the generator; the transform step
    fails exactly when one of the configured input columns is missing from
    the table, and then with [KeyError]; the fit-and-transform step fails
    in the same cases with the same error. *)
Theorem X13_text_steps X g :
  NoDup (names X) →
  (TextSpecialFeatureGenerator._transform X g).1 = g ∧
  (TextSpecialFeatureGenerator._fit_transform S_TEXT_SPECIAL X g).1 = g ∧
  ((∃ e, (TextSpecialFeatureGenerator._transform X g).2 = Raise e) ↔
   ∃ name, name ∈ default [] (features_in g) ∧ name ∉ names X) ∧
  (∀ e, (TextSpecialFeatureGenerator._transform X g).2 = Raise e →
        e = KeyError) ∧
  (∀ e, (TextSpecialFeatureGenerator._fit_transform S_TEXT_SPECIAL X g).2
        = Raise e ↔
        (TextSpecialFeatureGenerator._transform X g).2 = Raise e).
Proof.
  intros _.
  split; [apply tame_transform|]. split; [apply tame_fit_transform|].
  assert (∀ e, (TextSpecialFeatureGenerator._fit_transform S_TEXT_SPECIAL X g).2
               = Raise e ↔
               (TextSpecialFeatureGenerator._transform X g).2 = Raise e) as Hsame.
  { intros e. unfold TextSpecialFeatureGenerator._fit_transform, mbind, M_bind.
    destruct (TextSpecialFeatureGenerator._transform X g) as [g' [out|e']];
      simpl; split; intros Heq; by inversion Heq. }
  split_and!; [| |done]; rewrite text_transform_cases;
    destruct (features_in g) as [[|f features]|]; simpl.
  - split; [by intros [e ?]|]. by intros (name & ?%elem_of_nil & _).
  - destruct (decide _) as [Hall|Hnot]; simpl.
    + split; [by intros [e ?]|]. intros (name & Hin & Hnotin).
      rewrite Forall_forall in Hall. by destruct (Hnotin (Hall name Hin)).
    + split; [|by eauto]. intros _.
      apply not_Forall_Exists in Hnot; [|apply _].
      apply Exists_exists in Hnot as (name & Hin & Hnotin). eauto.
  - split; [by intros [e ?]|]. by intros (name & ?%elem_of_nil & _).
  - done.
  - destruct (decide _); simpl; [done|]. by intros e [= <-].
  - done.
Qed.

End TableFacts.

(** * Further properties of fit and transform *)

Lemma first_occurrences_distinct (seen symbols : list str) :
  NoDup seen → NoDup (first_occurrences seen symbols).
Proof.
  revert seen. induction symbols as [|s symbols IH]; intros seen Hnd; simpl.
  - done.
  - destruct (decide (s ∈ seen)) as [Hin|Hnotin]; [by apply IH|].
    apply IH. apply NoDup_app. split_and!; [done| |apply NoDup_singleton].
    intros x Hx ->%list_elem_of_singleton. done.
Qed.

Lemma distinct_symbols_idemp (symbols : list str) :
  distinct_symbols (distinct_symbols symbols) = distinct_symbols symbols.
Proof.
  apply distinct_symbols_NoDup, first_occurrences_distinct, NoDup_nil_2.
Qed.

Section LifecycleFacts.
Context {L : Type} `{U : CharClass}.
Variable S_TEXT_SPECIAL : str.
Variable get_type_family_groups_df : DataFrame L cell → gmap str (list str).
Implicit Types (X : DataFrame L str) (g : Generator).

(** [transform] on a fitted text generator, case by case. *)
Lemma transform_cases X g (features : list str) :
  class_of g = TextSpecial → _is_fit g = true →
  features_in g = Some features →
  transform X g =
  if decide (Forall (λ name, name ∈ names X) features)
  then (g, Return (mkFrame (index X)
          (expected_columns X features (distinct_symbols (_symbols g)))))
  else (g, Raise KeyError).
Proof.
  intros Hcls Hfit Hfeat. destruct (decide _) as [Hall|Hnot].
  - by apply transform_run.
  - rewrite transform_fit by done. unfold mbind, M_bind, getitem_list.
    rewrite Hfeat. by rewrite select_columns_None.
Qed.

(** A successful [fit_transform] of the text generator, in closed form. *)
Lemma fit_transform_text_run X g (features : list str) :
  class_of g = TextSpecial → _is_fit g = false →
  default (names X) (features_in g) = features →
  Forall (λ name, name ∈ names X) features →
  fit_transform S_TEXT_SPECIAL get_type_family_groups_df X g =
  let out := mkFrame (index X)
               (expected_columns X features (distinct_symbols (_symbols g))) in
  (mkGenerator TextSpecial true
     (Some (mkMetadata (get_type_family_groups_df out)
              {[ S_TEXT_SPECIAL := names out ]}))
     (Some features) (Some (names out)) (_symbols g),
   Return out).
Proof.
  intros Hcls Hfit Hdef Hall. rewrite fit_transform_run by done. cbv zeta.
  set (g1 := match features_in g with
             | Some _ => g
             | None => set_features_in (names X) g
             end).
  assert (class_of g1 = TextSpecial ∧ _is_fit g1 = false ∧
          features_in g1 = Some features ∧ _symbols g1 = _symbols g ∧
          feature_types_metadata g1 = feature_types_metadata g ∧
          features_out g1 = features_out g) as (Hc1 & Hf1 & Hfeat1 & Hs1 & _).
  { subst g1. destruct (features_in g) as [l|] eqn:Hfeat; simpl in *;
      subst; by split_and!. }
  clearbody g1. unfold getitem_list. rewrite Hfeat1.
  destruct (select_columns_Some (columns X) features Hall)
    as (sel & -> & Hnames & Hget).
  unfold mret, M_ret. rewrite dispatch_fit_transform, Hc1.
  unfold TextSpecialFeatureGenerator._fit_transform, mbind, M_bind,
    TextSpecialFeatureGenerator._transform.
  rewrite (generate_features_run _ features) by
    (done || (unfold names; cbn [columns]; rewrite Hnames;
              apply Forall_forall; auto)).
  cbn [index]. rewrite Hs1.
  rewrite (expected_columns_ext X (mkFrame (index X) sel))
    by (apply Forall_forall; intros name Hname; cbn [columns]; by apply Hget).
  unfold set_is_fit, set_feature_types_metadata, set_features_out, mret, M_ret.
  cbn [class_of _is_fit feature_types_metadata features_in features_out _symbols].
  by rewrite Hc1, Hfeat1, Hs1.
Qed.

(** [fit_transform] of the text generator with a configured column that
    the table lacks. *)
Lemma fit_transform_text_missing X g (features : list str) :
  class_of g = TextSpecial → _is_fit g = false →
  features_in g = Some features →
  ¬ Forall (λ name, name ∈ names X) features →
  fit_transform S_TEXT_SPECIAL get_type_family_groups_df X g
  = (g, Raise KeyError).
Proof.
  intros Hcls Hfit Hfeat Hnot. rewrite fit_transform_run by done. cbv zeta.
  rewrite Hfeat. unfold getitem_list. rewrite Hfeat.
  by rewrite select_columns_None.
Qed.

(** X14: [transform] on a fitted generator whose configured input columns
    are not all in the table raises [KeyError] and leaves the generator
    as it is. *)
Theorem X14_transform_missing_column X g (features : list str) (name : str) :
  _is_fit g = true → features_in g = Some features →
  name ∈ features → name ∉ names X →
  transform X g = (g, Raise KeyError).
Proof.
  intros Hfit Hfeat Hin Hnotin. rewrite transform_fit by done.
  unfold mbind, M_bind, getitem_list. rewrite Hfeat.
  rewrite select_columns_None; [done|].
  rewrite Forall_forall. intros Hall. by apply Hnotin, Hall.
Qed.

(** X15: [transform] reads only the row index and the configured input
    columns: two tables with the same index that agree on these columns
    are transformed into the same table. *)
Theorem X15_transform_reads_configured X (X' : DataFrame L str) g
    (features : list str) :
  class_of g = TextSpecial → _is_fit g = true →
  features_in g = Some features →
  NoDup (names X) → NoDup (names X') →
  index X' = index X →
  Forall (λ name, name ∈ names X ∧
                  get_column name (columns X') = get_column name (columns X))
    features →
  transform X' g = transform X g.
Proof.
  intros Hcls Hfit Hfeat _ _ Hidx Hagree.
  rewrite Forall_and in Hagree. destruct Hagree as [Hall Hsame].
  assert (Forall (λ name, name ∈ names X') features) as Hall'.
  { rewrite Forall_forall in *. intros name Hin.
    destruct (get_column_Some name (columns X) (Hall name Hin)) as [v Hv].
    rewrite <- (Hsame name Hin) in Hv. by apply get_column_names in Hv. }
  rewrite (transform_run X g features), (transform_run X' g features) by done.
  by rewrite Hidx, (expected_columns_ext X X').
Qed.

(** X16: configuring a symbol more than once changes nothing: [transform]
    returns what it returns with each symbol configured once, at the place
    of its first occurrence. *)
Theorem X16_repeated_symbols X g g' (features : list str) :
  class_of g = TextSpecial → class_of g' = TextSpecial →
  _is_fit g = true → _is_fit g' = true →
  features_in g = Some features → features_in g' = Some features →
  _symbols g' = distinct_symbols (_symbols g) →
  (transform X g').2 = (transform X g).2.
Proof.
  intros Hc Hc' Hf Hf' Hfeat Hfeat' Hsym.
  rewrite (transform_cases X g features), (transform_cases X g' features)
    by done.
  destruct (decide _); [|done]. simpl.
  by rewrite Hsym, distinct_symbols_idemp.
Qed.

End LifecycleFacts.

Section FitFacts.
Context {L : Type} `{U : CharClass}.
Variable S_TEXT_SPECIAL : str.
Variable get_type_family_groups_df : DataFrame L cell → gmap str (list str).
Implicit Types (X : DataFrame L str) (g : Generator).

(** The state [fit_transform] leaves behind on an instance that is not
    fit: on failure the instance with its input columns inferred if they
    were not configured, on success that instance marked fit with its
    output columns and metadata. *)
Lemma fit_transform_state X g :
  _is_fit g = false →
  let g1 := match features_in g with
            | Some _ => g
            | None => set_features_in (names X) g
            end in
  (∃ e, fit_transform S_TEXT_SPECIAL get_type_family_groups_df X g
        = (g1, Raise e)) ∨
  (∃ out special,
     fit_transform S_TEXT_SPECIAL get_type_family_groups_df X g
     = (set_is_fit true
          (set_feature_types_metadata
             (mkMetadata (get_type_family_groups_df out) special)
             (set_features_out (names out) g1)),
        Return out)).
Proof.
  intros Hfit. rewrite fit_transform_run by done. cbv zeta.
  set (g1 := match features_in g with
             | Some _ => g
             | None => set_features_in (names X) g
             end).
  clearbody g1.
  destruct (getitem_list_state X (features_in g1) g1) as [Hst _].
  destruct (getitem_list X (features_in g1) g1) as [g2 [X_in|e]];
    simpl in Hst; subst g2; [|by eauto].
  rewrite dispatch_fit_transform. destruct (class_of g1); [by eauto|].
  pose proof (tame_fit_transform S_TEXT_SPECIAL X_in) as (Hst & _).
  specialize (Hst g1).
  destruct (TextSpecialFeatureGenerator._fit_transform _ _ _)
    as [g3 [[X_out sp]|e]]; simpl in Hst; subst g3; by eauto.
Qed.

(** X17: [fit_transform] of an unfit text generator on a table that has
    its input columns (the configured ones, or else all columns of the
    table) succeeds: the generator becomes fit, keeps its class and
    symbols, has these input columns, records the columns of the returned
    table as output columns and the metadata built from them, and the
    returned table has the index of the input and the columns of the
    transform step. *)
Theorem X17_fit_transform_result X g (features : list str) :
  class_of g = TextSpecial → _is_fit g = false →
  default (names X) (features_in g) = features →
  NoDup (names X) → NoDup features →
  Forall (λ name, name ∈ names X) features →
  ∃ g' (out : DataFrame L cell),
    fit_transform S_TEXT_SPECIAL get_type_family_groups_df X g
    = (g', Return out) ∧
    _is_fit g' = true ∧ class_of g' = TextSpecial ∧
    _symbols g' = _symbols g ∧
    features_in g' = Some features ∧
    features_out g' = Some (names out) ∧
    feature_types_metadata g'
    = Some (mkMetadata (get_type_family_groups_df out)
              {[ S_TEXT_SPECIAL := names out ]}) ∧
    names out = expected_names features (distinct_symbols (_symbols g)) ∧
    index out = index X.
Proof.
  intros Hcls Hfit Hdef _ _ Hall. do 2 eexists.
  split; [by apply fit_transform_text_run|]. cbv zeta.
  split_and!; try done. apply expected_columns_names.
Qed.

(** X18: after a successful [fit_transform] of a text generator with
    pairwise distinct configured input columns (if any) on a table with
    pairwise distinct column labels, [transform] on the same table returns
    the table [fit_transform] returned, and [transform] on any table with
    pairwise distinct labels that has the input columns returns a table
    with the recorded output columns. *)
Theorem X18_fit_then_transform X (X' : DataFrame L str) g g'
    (out : DataFrame L cell) :
  class_of g = TextSpecial →
  (∀ features, features_in g = Some features → NoDup features) →
  NoDup (names X) → NoDup (names X') →
  fit_transform S_TEXT_SPECIAL get_type_family_groups_df X g
  = (g', Return out) →
  transform X g' = (g', Return out) ∧
  (Forall (λ name, name ∈ names X') (default [] (features_in g')) →
   ∃ out' : DataFrame L cell,
     transform X' g' = (g', Return out') ∧
     features_out g' = Some (names out')).
Proof.
  intros Hcls _ _ _ Hrun.
  destruct (_is_fit g) eqn:Hfit; [by rewrite fit_transform_fit in Hrun|].
  set (features := default (names X) (features_in g)).
  destruct (decide (Forall (λ name, name ∈ names X) features)) as [Hall|Hnot].
  - rewrite (fit_transform_text_run _ _ X g features) in Hrun by done.
    cbv zeta in Hrun. injection Hrun as <- <-. split.
    + by rewrite (transform_run X _ features).
    + simpl. intros Hall'. eexists.
      split; [by rewrite (transform_run X' _ features)|].
      unfold names. cbn [columns]. by rewrite !expected_columns_names.
  - destruct (features_in g) as [l|] eqn:Hfeat.
    + by rewrite (fit_transform_text_missing _ _ X g l) in Hrun.
    + destruct Hnot. subst features. simpl. by apply Forall_forall.
Qed.

(** X19: [fit_transform] of an unfit text generator with pairwise distinct
    configured input columns (if any), on a table with pairwise distinct
    column labels, fails exactly when a configured input column is missing
    from the table; it then raises [KeyError] and leaves the generator as
    it was, still unfit. *)
Theorem X19_fit_transform_failure X g :
  class_of g = TextSpecial → _is_fit g = false →
  (∀ features, features_in g = Some features → NoDup features) →
  NoDup (names X) →
  ((∃ e, (fit_transform S_TEXT_SPECIAL get_type_family_groups_df X g).2
         = Raise e) ↔
   ∃ name, name ∈ default [] (features_in g) ∧ name ∉ names X) ∧
  (∀ e, (fit_transform S_TEXT_SPECIAL get_type_family_groups_df X g).2
        = Raise e →
        fit_transform S_TEXT_SPECIAL get_type_family_groups_df X g
        = (g, Raise KeyError)).
Proof.
  intros Hcls Hfit _ _.
  set (features := default (names X) (features_in g)).
  destruct (decide (Forall (λ name, name ∈ names X) features)) as [Hall|Hnot].
  - rewrite (fit_transform_text_run _ _ X g features) by done. cbv zeta.
    simpl. split; [|done]. split; [by intros [e ?]|].
    intros (name & Hin & Hnotin). subst features.
    destruct (features_in g) as [l|]; simpl in *; [|by apply elem_of_nil in Hin].
    rewrite Forall_forall in Hall. by destruct (Hnotin (Hall name Hin)).
  - destruct (features_in g) as [l|] eqn:Hfeat.
    + rewrite (fit_transform_text_missing _ _ X g l) by done. simpl.
      split; [|done]. split; [|by eauto]. intros _.
      apply not_Forall_Exists in Hnot; [|apply _].
      apply Exists_exists in Hnot as (name & Hin & Hnotin). eauto.
    + destruct Hnot. subst features. simpl. by apply Forall_forall.
Qed.

(** X20: an unfit text generator without configured input columns takes
    all the columns of the table it is fitted on: [fit_transform] then
    cannot fail, and returns 6+2D columns for each column of the table, D
    being the number of distinct symbols. *)
Theorem X20_inferred_input_columns X g :
  class_of g = TextSpecial → _is_fit g = false → features_in g = None →
  NoDup (names X) →
  ∃ g' (out : DataFrame L cell),
    fit_transform S_TEXT_SPECIAL get_type_family_groups_df X g
    = (g', Return out) ∧
    features_in g' = Some (names X) ∧
    length (names out)
    = (length (names X) * (6 + 2 * length (distinct_symbols (_symbols g))))%nat.
Proof.
  intros Hcls Hfit Hfeat _. do 2 eexists.
  split; [apply (fit_transform_text_run _ _ X g (names X)); try done|].
  - by rewrite Hfeat.
  - by apply Forall_forall.
  - cbv zeta. split; [done|].
    unfold names at 1. cbn [columns].
    by rewrite expected_columns_names, expected_names_length.
Qed.

(** X21: [transform] and [fit] never change the instance, and
    [fit_transform] does not change an instance that is already fit: once
    fit, an instance stays as it is whatever is called on it. *)
Theorem X21_fitted_is_frozen X g :
  (transform X g).1 = g ∧ (fit X g).1 = g ∧
  (_is_fit g = true →
   (fit_transform S_TEXT_SPECIAL get_type_family_groups_df X g).1 = g).
Proof.
  split; [apply transform_state|]. split; [done|].
  intros Hfit. by rewrite fit_transform_fit.
Qed.

(** X22: whatever the class and the outcome, [fit_transform] keeps the
    class and the symbols of the instance and its configured input
    columns, never makes a fit instance unfit, makes an instance fit
    exactly when it returns a table, and keeps the invariant that a fit
    instance has input columns, output columns and metadata. *)
Theorem X22_fit_transform_invariants X g :
  let result := fit_transform S_TEXT_SPECIAL get_type_family_groups_df X g in
  class_of result.1 = class_of g ∧
  _symbols result.1 = _symbols g ∧
  (∀ l, features_in g = Some l → features_in result.1 = Some l) ∧
  (_is_fit g = true → _is_fit result.1 = true) ∧
  (_is_fit g = false →
   (_is_fit result.1 = true ↔ ∃ out, result.2 = Return out)) ∧
  (fitted_complete g → fitted_complete result.1).
Proof.
  cbv zeta. destruct (_is_fit g) eqn:Hfit.
  - rewrite fit_transform_fit by done. simpl. by split_and!.
  - destruct (fit_transform_state X g Hfit) as [[e ->]|(out & sp & ->)];
      destruct (features_in g) as [l|] eqn:Hfeat; simpl;
      unfold fitted_complete; simpl; rewrite ?Hfit, ?Hfeat;
      split_and!; try done; try (by intros l0 [= <-]).
    + intros _. split; [done|by intros [? ?]].
    + intros _. split; [done|by intros [? ?]].
    + intros _. split; by eauto.
    + intros _. split; by eauto.
Qed.

(** X23: on an unfit instance of the bare base class [fit_transform]
    always fails and leaves the instance unfit, but not always unchanged:
    when no input columns were configured, the columns of the table stay
    recorded as input columns, and the delegate step's
    [NotImplementedError] is raised; with configured input columns the
    instance is unchanged, and the error is [KeyError] when one of them is
    missing and [NotImplementedError] otherwise. *)
Theorem X23_abstract_fit_transform X g :
  class_of g = Abstract → _is_fit g = false →
  match features_in g with
  | None =>
      fit_transform S_TEXT_SPECIAL get_type_family_groups_df X g
      = (set_features_in (names X) g, Raise NotImplementedError)
  | Some features =>
      fit_transform S_TEXT_SPECIAL get_type_family_groups_df X g
      = (g, Raise (if decide (Forall (λ name, name ∈ names X) features)
                   then NotImplementedError else KeyError))
  end.
Proof.
  intros Hcls Hfit. rewrite fit_transform_run by done. cbv zeta.
  destruct (features_in g) as [features|] eqn:Hfeat.
  - unfold getitem_list. rewrite Hfeat. destruct (decide _) as [Hall|Hnot].
    + destruct (select_columns_Some (columns X) features Hall) as (sel & -> & _).
      unfold mret, M_ret. by rewrite dispatch_fit_transform, Hcls.
    + by rewrite select_columns_None.
  - unfold getitem_list. cbn [features_in set_features_in].
    destruct (select_columns_Some (columns X) (names X)) as (sel & -> & _);
      [by apply Forall_forall|].
    unfold mret, M_ret. rewrite dispatch_fit_transform.
    change (class_of (set_features_in (names X) g)) with (class_of g).
    by rewrite Hcls.
Qed.

(** X24: the default symbols are sixteen distinct one-character strings,
    so a fitted text generator with the default symbols returns 38 columns
    for each configured input column. *)
Theorem X24_default_symbols X g (features : list str) :
  class_of g = TextSpecial → _is_fit g = true →
  features_in g = Some features → _symbols g = default_symbols →
  NoDup (names X) → NoDup features →
  Forall (λ name, name ∈ names X) features →
  ∃ out : DataFrame L cell,
    transform X g = (g, Return out) ∧
    length (names out) = (length features * 38)%nat.
Proof.
  intros Hcls Hfit Hfeat Hsym _ _ Hall. eexists.
  split; [by apply transform_run|].
  unfold names. cbn [columns].
  rewrite expected_columns_names, expected_names_length, Hsym.
  rewrite distinct_symbols_NoDup; [done|].
  apply (bool_decide_unpack _). by vm_compute.
Qed.

End FitFacts.

(** * The further properties on the sample data *)

Lemma latin_cjk_digit_is_word : @digit_is_word latin_cjk.
Proof.
  intros c. unfold isdigit, isword, latin_cjk. intros ->.
  by rewrite !orb_true_r.
Qed.

Lemma sample_names_distinct {A : Type} (name : str) (v : list A) :
  NoDup (names (mkFrame [0; 1; 2]%nat [(name, v)])).
Proof. apply NoDup_singleton. Qed.

Lemma X4_witness :
  (@digit_ratio latin_cjk (lit "abc123") + @special_ratio latin_cjk (lit "abc123")
   <= 1)%Q.
Proof.
  apply (@X4_digit_plus_special latin_cjk (lit "abc123")
           latin_cjk_digit_is_word).
Defined.

Lemma X7_witness :
  @split latin_cjk (lit "Hello World!")
  = @split latin_cjk (lit "Hello") ++ @split latin_cjk (lit "World!") ∧
  @word_count latin_cjk (lit "Hello World!")
  = (@word_count latin_cjk (lit "Hello") + @word_count latin_cjk (lit "World!"))%nat.
Proof.
  apply (@X7_word_count_join latin_cjk (lit "Hello") (lit "World!") 32).
  reflexivity.
Defined.

Lemma X10_witness :
  (py_sum (List.map (symbol_in_string_count (lit "a!b?!")) [lit "!"; lit "?"])
   ≤ char_count (lit "a!b?!"))%nat.
Proof.
  apply (X10_symbol_counts_sum (lit "a!b?!") [lit "!"; lit "?"]).
  apply NoDup_cons. split; [|apply NoDup_singleton].
  intros Hin%list_elem_of_singleton. discriminate Hin.
Defined.

Lemma X11_witness :
  ∃ (out : DataFrame nat cell) (ratios : list cell),
    @TextSpecialFeatureGenerator._generate_text_special nat latin_cjk
      sample_series (lit "text") sample_fit = (sample_fit, Return out) ∧
    get_column (lit "text.symbol_ratio.!") (columns out) = Some ratios ∧
    Forall (λ c, ∃ q, c = Float (Fin q) ∧ (0 <= q <= 1)%Q) ratios.
Proof.
  apply (@X11_symbol_ratio_range nat latin_cjk sample_series (lit "text")
           (lit "!") sample_fit).
  left.
Defined.

Lemma X13_witness :
  (@TextSpecialFeatureGenerator._transform nat latin_cjk sample_table_other
     sample_fit).1 = sample_fit ∧
  ∃ e, (@TextSpecialFeatureGenerator._transform nat latin_cjk
          sample_table_other sample_fit).2 = Raise e.
Proof.
  destruct (@X13_text_steps nat latin_cjk (lit "text_special")
              sample_table_other sample_fit)
    as (Hstate & _ & [_ Hfails] & _).
  - apply NoDup_singleton.
  - split; [exact Hstate|]. apply Hfails.
    exists (lit "text"). split; [left|].
    intros Hin%list_elem_of_singleton. discriminate Hin.
Defined.

Lemma X14_witness :
  @transform nat latin_cjk sample_table_other sample_fit
  = (sample_fit, Raise KeyError).
Proof.
  apply (@X14_transform_missing_column nat latin_cjk sample_table_other
           sample_fit [lit "text"] (lit "text")).
  - reflexivity.
  - reflexivity.
  - left.
  - intros Hin%list_elem_of_singleton. discriminate Hin.
Defined.

Lemma sample_table_wide_distinct : NoDup (names sample_table_wide).
Proof.
  apply NoDup_cons. split; [|apply NoDup_singleton].
  intros Hin%list_elem_of_singleton. discriminate Hin.
Qed.

Lemma X15_witness :
  @transform nat latin_cjk sample_table_wide sample_fit
  = @transform nat latin_cjk sample_table sample_fit.
Proof.
  apply (@X15_transform_reads_configured nat latin_cjk sample_table
           sample_table_wide sample_fit [lit "text"]).
  - reflexivity.
  - reflexivity.
  - reflexivity.
  - apply NoDup_singleton.
  - exact sample_table_wide_distinct.
  - reflexivity.
  - constructor; [|constructor]. split; [left|reflexivity].
Defined.

Lemma X16_witness :
  (@transform nat latin_cjk sample_table sample_once).2
  = (@transform nat latin_cjk sample_table sample_repeated).2.
Proof.
  apply (@X16_repeated_symbols nat latin_cjk sample_table sample_repeated
           sample_once [lit "text"]); reflexivity.
Defined.

Lemma X17_witness :
  ∃ g' (out : DataFrame nat cell),
    @fit_transform nat latin_cjk (lit "text_special") sample_type_groups
      sample_table sample_configured = (g', Return out) ∧
    _is_fit g' = true ∧
    features_in g' = Some [lit "text"] ∧
    features_out g' = Some (names out) ∧
    length (names out) = 10%nat.
Proof.
  destruct (@X17_fit_transform_result nat latin_cjk (lit "text_special")
              sample_type_groups sample_table sample_configured [lit "text"])
    as (g' & out & Hrun & Hfit & _ & _ & Hin & Hout & _ & Hnames & _).
  - reflexivity.
  - reflexivity.
  - reflexivity.
  - apply NoDup_singleton.
  - apply NoDup_singleton.
  - constructor; [left|constructor].
  - exists g', out. split; [exact Hrun|]. split; [exact Hfit|].
    split; [exact Hin|]. split; [exact Hout|]. rewrite Hnames. reflexivity.
Defined.

Lemma X18_witness :
  ∃ g' (out : DataFrame nat cell),
    @fit_transform nat latin_cjk (lit "text_special") sample_type_groups
      sample_table sample_unfit = (g', Return out) ∧
    @transform nat latin_cjk sample_table g' = (g', Return out) ∧
    ∃ out' : DataFrame nat cell,
      @transform nat latin_cjk sample_table_wide g' = (g', Return out') ∧
      features_out g' = Some (names out').
Proof.
  destruct (@fit_transform nat latin_cjk (lit "text_special")
              sample_type_groups sample_table sample_unfit)
    as [g' [out|e]] eqn:Hrun.
  - destruct (@X18_fit_then_transform nat latin_cjk (lit "text_special")
                sample_type_groups sample_table sample_table_wide
                sample_unfit g' out eq_refl
                (λ features (H : None = Some features),
                   match H with end)
                (sample_names_distinct _ _) sample_table_wide_distinct Hrun)
      as [Hsame Hother].
    exists g', out. split; [reflexivity|]. split; [exact Hsame|].
    apply Hother. vm_compute in Hrun. injection Hrun as <- _.
    constructor; [right; left|constructor].
  - vm_compute in Hrun. discriminate Hrun.
Defined.

Lemma X19_witness :
  @fit_transform nat latin_cjk (lit "text_special") sample_type_groups
    sample_table_other sample_configured
  = (sample_configured, Raise KeyError).
Proof.
  destruct (@X19_fit_transform_failure nat latin_cjk (lit "text_special")
              sample_type_groups sample_table_other sample_configured
              eq_refl eq_refl) as [[_ Hfails] Hunchanged].
  { intros features [= <-]. apply NoDup_singleton. }
  { apply NoDup_singleton. }
  destruct Hfails as [e He].
  - exists (lit "text"). split; [left|].
    intros Hin%list_elem_of_singleton. discriminate Hin.
  - exact (Hunchanged e He).
Defined.

Lemma X20_witness :
  ∃ g' (out : DataFrame nat cell),
    @fit_transform nat latin_cjk (lit "text_special") sample_type_groups
      sample_table_wide sample_unfit = (g', Return out) ∧
    features_in g' = Some [lit "id"; lit "text"] ∧
    length (names out) = 20%nat.
Proof.
  apply (@X20_inferred_input_columns nat latin_cjk (lit "text_special")
           sample_type_groups sample_table_wide sample_unfit);
    [reflexivity..|exact sample_table_wide_distinct].
Defined.

Lemma X21_witness :
  (@fit_transform nat latin_cjk (lit "text_special") sample_type_groups
     sample_table sample_fit).1 = sample_fit.
Proof.
  apply (@X21_fitted_is_frozen nat latin_cjk (lit "text_special")
           sample_type_groups sample_table sample_fit).
  reflexivity.
Defined.

Lemma X22_witness :
  features_in
    (@fit_transform nat latin_cjk (lit "text_special") sample_type_groups
       sample_table_other sample_configured).1 = Some [lit "text"] ∧
  fitted_complete
    (@fit_transform nat latin_cjk (lit "text_special") sample_type_groups
       sample_table sample_unfit).1.
Proof.
  split.
  - apply (@X22_fit_transform_invariants nat latin_cjk (lit "text_special")
             sample_type_groups sample_table_other sample_configured).
    reflexivity.
  - apply (@X22_fit_transform_invariants nat latin_cjk (lit "text_special")
             sample_type_groups sample_table sample_unfit).
    intros Hfit. discriminate Hfit.
Defined.

Lemma X23_witness :
  @fit_transform nat latin_cjk (lit "text_special") sample_type_groups
    sample_table (init None)
  = (set_features_in [lit "text"] (init None), Raise NotImplementedError).
Proof.
  apply (@X23_abstract_fit_transform nat latin_cjk (lit "text_special")
           sample_type_groups sample_table (init None)); reflexivity.
Defined.

Lemma X24_witness :
  ∃ out : DataFrame nat cell,
    @transform nat latin_cjk sample_table sample_default
    = (sample_default, Return out) ∧
    length (names out) = 38%nat.
Proof.
  apply (@X24_default_symbols nat latin_cjk sample_table sample_default
           [lit "text"]).
  - reflexivity.
  - reflexivity.
  - reflexivity.
  - reflexivity.
  - apply NoDup_singleton.
  - apply NoDup_singleton.
  - constructor; [left|constructor].
Defined.

(** * The table of [transform], column by column *)

Section Assembly.
Context {L : Type} `{U : CharClass}.
Implicit Types (X : DataFrame L str) (g : Generator).

(** X25: the table [transform] returns is made of the tables generated for
    the configured input columns one by one, each from the column's values
    over the table's index, put side by side in the configured order. *)
Theorem X25_transform_assembles X g (features : list str) :
  class_of g = TextSpecial → _is_fit g = true →
  features_in g = Some features →
  NoDup (names X) → NoDup features →
  Forall (λ name, name ∈ names X) features →
  ∃ (out : DataFrame L cell) (frames : list (DataFrame L cell)),
    transform X g = (g, Return out) ∧
    Forall2 (λ feature df,
               TextSpecialFeatureGenerator._generate_text_special
                 (mkSeries (index X) (column_values X feature)) feature g
               = (g, Return df))
      features frames ∧
    index out = index X ∧
    columns out = concat (List.map columns frames).
Proof.
  intros Hcls Hfit Hfeat _ _ Hall.
  exists (mkFrame (index X)
            (expected_columns X features (distinct_symbols (_symbols g)))),
         (List.map (λ feature,
                      mkFrame (index X)
                        (text_special_columns (column_values X feature) feature
                           (distinct_symbols (_symbols g))))
            features).
  split_and!.
  - by apply transform_run.
  - clear. induction features as [|f features IH]; simpl; constructor; [|done].
    by rewrite generate_text_special_run.
  - done.
  - cbn [columns]. by rewrite concat_frames.
Qed.

End Assembly.

Lemma X25_witness :
  ∃ (out : DataFrame nat cell) (frames : list (DataFrame nat cell)),
    @transform nat latin_cjk sample_table sample_fit = (sample_fit, Return out) ∧
    length frames = 1%nat ∧
    columns out = concat (List.map columns frames).
Proof.
  destruct (@X25_transform_assembles nat latin_cjk sample_table sample_fit
              [lit "text"])
    as (out & frames & Hrun & Hframes & _ & Hcols).
  - reflexivity.
  - reflexivity.
  - reflexivity.
  - apply NoDup_singleton.
  - apply NoDup_singleton.
  - constructor; [left|constructor].
  - exists out, frames. split; [exact Hrun|]. split; [|exact Hcols].
    symmetry. exact (Forall2_length _ _ _ Hframes).
Defined.
